(** * CS2VidApp: the settings engine of [main.py]

    A shallow embedding of the parts of [src/main.py] that read, decode,
    encode and write the video configuration: [SETTINGS_SCHEMA],
    [parse_config], [serialize_config], the widgets that [init_ui] builds,
    [populate_widgets] and [collect_widget_values].

    Python [str] values are sequences of Unicode code points, so a character
    is a code point ([N]) and a string a list of them.  A Python [dict] keeps
    insertion order, so it is an association list updated in place. *)

From Stdlib Require Import List NArith ZArith Bool Ascii String Lia Arith.
From Stdlib Require Import DecimalString.
From Stdlib Require DecimalFacts DecimalPos.
Import ListNotations.

Local Open Scope N_scope.

(** ** Characters and strings *)

Definition char := N.
Definition str := list char.

(** A string literal of the source, as code points. *)
Definition py (s : string) : str := map N_of_ascii (list_ascii_of_string s).

Definition dq : char := 34.   (* the double quote *)
Definition nl : char := 10.   (* \n *)
Definition cr : char := 13.   (* \r *)
Definition tab : char := 9.   (* \t *)
Definition colon : char := 58.

Fixpoint str_eqb (a b : str) : bool :=
  match a, b with
  | [], [] => true
  | x :: a', y :: b' => (x =? y) && str_eqb a' b'
  | _, _ => false
  end.

(** [str.isspace] on one character, which is also what [\s] matches in a
    [str] pattern and what [str.strip()] removes. *)
Definition is_space (c : char) : bool :=
  ((9 <=? c) && (c <=? 13)) || ((28 <=? c) && (c <=? 32))
  || (c =? 133) || (c =? 160) || (c =? 5760)
  || ((8192 <=? c) && (c <=? 8202))
  || (c =? 8232) || (c =? 8233) || (c =? 8239) || (c =? 8287) || (c =? 12288).

(** The line boundaries of [str.splitlines]. *)
Definition is_linebreak (c : char) : bool :=
  ((10 <=? c) && (c <=? 13)) || ((28 <=? c) && (c <=? 30))
  || (c =? 133) || (c =? 8232) || (c =? 8233).

Definition is_dq (c : char) : bool := c =? dq.
Definition not_dq (c : char) : bool := negb (c =? dq).

(** [str.splitlines()]: the lines without their boundaries; [\r\n] is one
    boundary; no empty last line. *)
Fixpoint splitlines (s : str) : list str :=
  match s with
  | [] => []
  | c :: s' =>
      if is_linebreak c then
        [] :: match s' with
              | d :: s'' => if (c =? cr) && (d =? nl) then splitlines s''
                            else splitlines s'
              | [] => splitlines s'
              end
      else
        match splitlines s' with
        | [] => [[c]]
        | l :: ls => (c :: l) :: ls
        end
  end.

(** [sep.join(parts)] *)
Fixpoint join (sep : str) (parts : list str) : str :=
  match parts with
  | [] => []
  | [p] => p
  | p :: ps => p ++ sep ++ join sep ps
  end.

(** The longest prefix whose characters satisfy [p], and the rest. *)
Fixpoint span (p : char -> bool) (s : str) : str * str :=
  match s with
  | c :: s' => if p c then let (a, r) := span p s' in (c :: a, r) else ([], s)
  | [] => ([], [])
  end.

(** [str.strip()] *)
Definition lstrip (s : str) : str := snd (span is_space s).
Definition strip (s : str) : str := rev (lstrip (rev (lstrip s))).

(** [sep in s] and [s.split(sep, 1)] for a one-character separator. *)
Definition contains (sep : char) (s : str) : bool := existsb (N.eqb sep) s.
Definition split_once (sep : char) (s : str) : str * str :=
  let (a, r) := span (fun c => negb (c =? sep)) s in (a, tl r).

(** ** Ordered dictionaries *)

Definition dict (V : Type) := list (str * V).

Fixpoint dict_get {V} (d : dict V) (k : str) : option V :=
  match d with
  | [] => None
  | (k', v) :: d' => if str_eqb k k' then Some v else dict_get d' k
  end.

(** [d[k] = v]: a present key keeps its place, a new key goes last. *)
Fixpoint dict_set {V} (d : dict V) (k : str) (v : V) : dict V :=
  match d with
  | [] => [(k, v)]
  | (k', v') :: d' =>
      if str_eqb k k' then (k', v) :: d' else (k', v') :: dict_set d' k v
  end.

Definition keys {V} (d : dict V) : list str := map fst d.

(** ** The regular expression of [parse_config]

    [pair_re] uses character classes that stand alone or under a greedy
    [+].  [match_here] is the backtracking matcher anchored at the start of
    its input; it returns the text each item matched and what follows the
    match. *)

Inductive quant := One | Plus.
Record item := Item { cls : char -> bool; rep : quant }.

Definition matched := (list str * str)%type.

Definition push (g : str) (r : option matched) : option matched :=
  match r with
  | Some (gs, rest) => Some (g :: gs, rest)
  | None => None
  end.

(** Greedy [+]: take one more character if possible, and give it back when
    the rest of the pattern then fails. *)
Fixpoint plus_loop (cl : char -> bool) (k : str -> option matched)
    (acc s : str) : option matched :=
  match s with
  | c :: s' =>
      if cl c then
        match plus_loop cl k (acc ++ [c]) s' with
        | Some r => Some r
        | None => push acc (k s)
        end
      else push acc (k s)
  | [] => push acc (k [])
  end.

Fixpoint match_here (p : list item) (s : str) : option matched :=
  match p with
  | [] => Some ([], s)
  | it :: p' =>
      match s with
      | [] => None
      | c :: s' =>
          if cls it c then
            match rep it with
            | One => push [c] (match_here p' s')
            | Plus => plus_loop (cls it) (match_here p') [c] s'
            end
          else None
      end
  end.

(** ["([^"]+)"\s+"([^"]+)"] *)
Definition pair_re : list item :=
  [ Item is_dq One; Item not_dq Plus; Item is_dq One;
    Item is_space Plus;
    Item is_dq One; Item not_dq Plus; Item is_dq One ].

(** One match of [pair_re] at the start of [s]: its two groups and the text
    after it. *)
Definition pair_match (s : str) : option (str * str * str) :=
  match match_here pair_re s with
  | Some ([_; k; _; _; _; v; _], rest) => Some (k, v, rest)
  | _ => None
  end.

(** [pair_re.finditer(line)]: leftmost matches, each search starting where
    the last match ended.  A match is never empty, so [fuel] counts the
    characters still to scan. *)
Fixpoint finditer_from (fuel : nat) (s : str) : list (str * str) :=
  match fuel with
  | O => []
  | S n =>
      match pair_match s with
      | Some (k, v, rest) => (k, v) :: finditer_from n rest
      | None =>
          match s with
          | [] => []
          | _ :: s' => finditer_from n s'
          end
      end
  end.

Definition finditer (line : str) : list (str * str) :=
  finditer_from (S (List.length line)) line.

(** ** [parse_config] and [serialize_config] *)

(** All matches of the text, line after line, in the order the two loops of
    [parse_config] visit them. *)
Definition all_matches (raw_txt : str) : list (str * str) :=
  flat_map finditer (splitlines raw_txt).

(** [k, v = match.groups(); config[k] = v] *)
Definition set_pair (config : dict str) (kv : str * str) : dict str :=
  dict_set config (fst kv) (snd kv).

Definition parse_config (raw_txt : str) : dict str :=
  fold_left set_pair (all_matches raw_txt) [].

Definition pair_line (kv : str * str) : str :=
  [tab; dq] ++ fst kv ++ [dq; tab; tab; dq] ++ snd kv ++ [dq].

Definition serialize_lines (settings : dict str) : list str :=
  [dq :: py "video.cfg" ++ [dq]; py "{"] ++ map pair_line settings ++ [py "}"].

Definition serialize_config (settings : dict str) : str :=
  join [nl] (serialize_lines settings).

(** ** Exceptions *)

Inductive exn := AttributeError | OverflowError | ValueError.

Inductive result (A : Type) :=
| Ok (a : A)
| Raise (e : exn).
Arguments Ok {A} a.
Arguments Raise {A} e.

Definition bind {A B} (r : result A) (f : A -> result B) : result B :=
  match r with
  | Ok a => f a
  | Raise e => Raise e
  end.

Notation "x <- r ;; k" := (bind r (fun x => k))
  (at level 61, r at next level, right associativity).

(** ** [SETTINGS_SCHEMA] *)

Inductive ty := TInt | TBool | TEnum | TMeta.

Record meta := Meta {
  label : string;
  mtype : ty;
  mmin : option Z;
  mmax : option Z;
  mstep : option Z;
  options : list str
}.

Definition m_int (l : string) (lo hi : Z) (step : option Z) : meta :=
  Meta l TInt (Some lo) (Some hi) step [].
Definition m_bool (l : string) : meta := Meta l TBool None None None [].
Definition m_enum (l : string) (opts : list string) : meta :=
  Meta l TEnum None None None (map py opts).
Definition m_meta (l : string) : meta := Meta l TMeta None None None [].

Definition low_to_ultra : list string := ["0:Low"; "1:Medium"; "2:High"; "3:Ultra"]%string.
Definition low_med_ultra : list string := ["0:Low"; "1:Med"; "2:High"; "3:Ultra"]%string.

Definition SETTINGS_SCHEMA : dict meta :=
  map (fun e => (py (fst e), snd e))
  [ ("setting.max_fps", m_int "FPS Limit" 0 999 None);
    ("setting.defaultres", m_int "Resolution Width" 320 7680 (Some 1%Z));
    ("setting.defaultresheight", m_int "Resolution Height" 200 4320 (Some 1%Z));
    ("setting.refreshrate_numerator", m_int "Refresh Rate (Hz)" 30 1000 None);
    ("setting.refreshrate_denominator", m_int "Refresh Denominator" 1 4 None);
    ("setting.fullscreen", m_bool "Fullscreen");
    ("setting.mat_vsync", m_bool "V-Sync");
    ("setting.monitor_index", m_int "Monitor Index" 0 7 None);
    ("setting.cpu_level", m_enum "CPU Detail Level" low_to_ultra);
    ("setting.gpu_mem_level", m_enum "GPU Memory Level" low_to_ultra);
    ("setting.gpu_level", m_enum "GPU Detail Level" low_to_ultra);
    ("setting.knowndevice", m_bool "Known Device (Auto)");
    ("setting.nowindowborder", m_bool "No Window Border");
    ("setting.fullscreen_min_on_focus_loss", m_bool "Minimize On Focus Loss");
    ("setting.high_dpi", m_bool "High DPI");
    ("setting.coop_fullscreen", m_bool "Coop Fullscreen");
    ("setting.shaderquality", m_enum "Shader Quality" low_med_ultra);
    ("setting.r_texturefilteringquality",
       m_enum "Texture Filtering"
         ["0:Bilinear"; "1:Trilinear"; "2:Aniso 4x"; "3:Aniso 8x"; "4:Aniso 16x"]);
    ("setting.msaa_samples", m_enum "MSAA Samples" ["0:Off"; "2:2x"; "4:4x"; "8:8x"]);
    ("setting.r_csgo_cmaa_enable", m_bool "CMAA Anti-Aliasing");
    ("setting.videocfg_shadow_quality",
       m_enum "Shadow Quality" ["0:Low"; "1:Med"; "2:High"; "3:Very High"]);
    ("setting.videocfg_dynamic_shadows",
       m_enum "Dynamic Shadows" ["0:Off"; "1:Some"; "2:All"]);
    ("setting.videocfg_texture_detail", m_enum "Texture Detail" low_med_ultra);
    ("setting.videocfg_particle_detail", m_enum "Particle Detail" low_med_ultra);
    ("setting.videocfg_ao_detail",
       m_enum "Ambient Occlusion" ["0:Disabled"; "1:Low"; "2:High"]);
    ("setting.videocfg_hdr_detail",
       m_enum "HDR Detail" ["-1:Quality"; "0:Performance"; "1:Balanced"; "2:Quality"]);
    ("setting.videocfg_fsr_detail",
       m_enum "FSR Detail"
         ["0:Off"; "1:Performance"; "2:Balanced"; "3:Quality"; "4:Ultra Quality"]);
    ("setting.r_low_latency",
       m_enum "Low Latency (Reflex)" ["0:Disabled"; "1:Enabled"; "2:Enabled + Boost"]);
    ("setting.aspectratiomode",
       m_enum "Aspect Ratio Mode" ["0:Auto"; "1:4:3 Str"; "2:16:9"; "3:16:10"]);
    ("Version", m_meta "Version");
    ("VendorID", m_meta "GPU VendorID");
    ("DeviceID", m_meta "GPU DeviceID");
    ("Autoconfig", m_meta "Auto Config") ]%string.

(** [meta.get("min", 0)] and [meta.get("max", 100000)] *)
Definition get_min (m : meta) : Z := match mmin m with Some x => x | None => 0%Z end.
Definition get_max (m : meta) : Z := match mmax m with Some x => x | None => 100000%Z end.

(** ** The Qt widgets that [init_ui] creates

    Only the state that [populate_widgets] and [collect_widget_values] read
    or write is kept.  A [QSpinBox] and a [QSlider] hold a range and a value
    inside it; setting a value bounds it to the range (Qt's [qBound]). *)

Record ranged := Ranged { minimum : Z; maximum : Z; value : Z }.

Definition qBound (lo v hi : Z) : Z := Z.max lo (Z.min hi v).
Definition bound (w : ranged) (v : Z) : Z := qBound (minimum w) v (maximum w).
Definition with_value (w : ranged) (v : Z) : ranged :=
  Ranged (minimum w) (maximum w) v.

(** A new [QSpinBox] or [QSlider]: range 0..99, value 0. *)
Definition new_ranged : ranged := Ranged 0 99 0.

(** [setRange(lo, hi)]: the maximum is never below the minimum, and the
    value is bounded again. *)
Definition setRange (lo hi : Z) (w : ranged) : ranged :=
  let hi' := Z.max lo hi in Ranged lo hi' (qBound lo (value w) hi').

Inductive widget :=
| QLabel (text : str)
| QCheckBox (text : str) (checked : bool)
| QSpinBox (box : ranged)
| QComboBox (items : list (str * str)) (currentIndex : Z)
    (* items: display label and item data *)
| FpsContainer (fps_spin fps_slider : ranged).
    (* the QWidget whose property composite_type is "fps_limit" *)

(** A Python int passed to a Qt method that takes a C++ [int]
    ([QSpinBox.setValue], [QSlider.setValue]): PyQt5 converts the argument
    and raises [OverflowError] when it does not fit. *)
Definition INT_MIN : Z := (- 2147483648)%Z.
Definition INT_MAX : Z := 2147483647%Z.
Definition c_int (v : Z) : result Z :=
  if ((INT_MIN <=? v) && (v <=? INT_MAX))%Z then Ok v else Raise OverflowError.

(** [fps_spin.setValue(v)] inside Qt, with the two connections of [init_ui]:
    [fps_spin.valueChanged -> fps_slider.setValue] and
    [fps_slider.valueChanged -> fps_spin.setValue].  A signal is emitted
    only when the value changes. *)
Definition spin_setValue_connected (v : Z) (spin slider : ranged)
  : ranged * ranged :=
  let s1 := bound spin v in
  if (s1 =? value spin)%Z then (spin, slider) else
  let spin1 := with_value spin s1 in
  let t1 := bound slider s1 in
  if (t1 =? value slider)%Z then (spin1, slider) else
  let slider1 := with_value slider t1 in
  let s2 := bound spin1 t1 in
  if (s2 =? s1)%Z then (spin1, slider1) else
  (with_value spin1 s2, with_value slider1 (bound slider1 s2)).

(** [fps_slider.setValue(v)] inside Qt, the same the other way round. *)
Definition slider_setValue_connected (v : Z) (spin slider : ranged)
  : ranged * ranged :=
  let (slider', spin') := spin_setValue_connected v slider spin in
  (spin', slider').

(** [combo.addItem(label, data)] on the items and the current index of a
    [QComboBox]: the first item of an empty box becomes the current one. *)
Definition addItem (lbl data : str) (c : list (str * str) * Z)
  : list (str * str) * Z :=
  (fst c ++ [(lbl, data)], if (snd c <? 0)%Z then 0%Z else snd c).

(** One option of the schema as [init_ui] splits it: the display label and
    the item data. *)
Definition option_item (opt : str) : str * str :=
  let (v, l) := if contains colon opt then split_once colon opt else (opt, opt) in
  (strip l, strip v).

(** The loop over [meta.get("options", [])] in [init_ui]. *)
Definition add_option (c : list (str * str) * Z) (opt : str)
  : list (str * str) * Z :=
  addItem (fst (option_item opt)) (snd (option_item opt)) c.

Definition make_combo (opts : list str) : widget :=
  let (items, i) := fold_left add_option opts ([], (-1)%Z) in QComboBox items i.

Definition fps_container : widget :=
  FpsContainer (setRange 0 999 new_ranged) (setRange 0 999 new_ranged).

(** The widget [init_ui] creates for one schema entry, in either column. *)
Definition make_widget (m : meta) : widget :=
  match mtype m with
  | TMeta => QLabel (py "-")
  | TBool => QCheckBox [] false
  | TInt => QSpinBox (setRange (get_min m) (get_max m) new_ranged)
  | TEnum => make_combo (options m)
  end.

(** [init_ui], as far as [self.widgets] goes: the keys of the left column,
    with the composite FPS control replacing the spin box of
    [setting.max_fps] after [setting.coop_fullscreen], then the keys of the
    right column. *)
Definition init_left (ws : dict widget) (e : str * meta) : dict widget :=
  let ws := dict_set ws (fst e) (make_widget (snd e)) in
  match mtype (snd e) with
  | TBool =>
      if str_eqb (fst e) (py "setting.coop_fullscreen")
      then dict_set ws (py "setting.max_fps") fps_container
      else ws
  | _ => ws
  end.

Definition init_right (ws : dict widget) (e : str * meta) : dict widget :=
  dict_set ws (fst e) (make_widget (snd e)).

Definition init_ui : dict widget :=
  let mid := Nat.div (List.length SETTINGS_SCHEMA) 2 in
  let ws := fold_left init_left (firstn mid SETTINGS_SCHEMA) [] in
  fold_left init_right (skipn mid SETTINGS_SCHEMA) ws.

(** ** Widget methods called from Python *)

Definition setChecked (b : bool) (w : widget) : result widget :=
  match w with
  | QCheckBox t _ => Ok (QCheckBox t b)
  | _ => Raise AttributeError
  end.

Definition isChecked (w : widget) : result bool :=
  match w with
  | QCheckBox _ b => Ok b
  | _ => Raise AttributeError
  end.

Definition setText (s : str) (w : widget) : result widget :=
  match w with
  | QLabel _ => Ok (QLabel s)
  | QCheckBox _ b => Ok (QCheckBox s b)
  | _ => Raise AttributeError
  end.

Definition setValue (v : Z) (w : widget) : result widget :=
  match w with
  | QSpinBox b => v' <- c_int v ;; Ok (QSpinBox (with_value b (bound b v')))
  | _ => Raise AttributeError
  end.

Definition get_value (w : widget) : result Z :=
  match w with
  | QSpinBox b => Ok (value b)
  | _ => Raise AttributeError
  end.

(** [widget.property("composite_type") == "fps_limit"] *)
Definition is_fps_limit (w : widget) : bool :=
  match w with
  | FpsContainer _ _ => true
  | _ => false
  end.

(** [setCurrentIndex(i)]: an index outside the items clears the selection. *)
Definition setCurrentIndex (i : Z) (w : widget) : result widget :=
  match w with
  | QComboBox items _ =>
      Ok (QComboBox items
            (if ((0 <=? i) && (i <? Z.of_nat (List.length items)))%Z then i else (-1)%Z))
  | _ => Raise AttributeError
  end.

(** [str(widget.currentData())]; without a current item the data is [None]. *)
Definition currentData_str (w : widget) : result str :=
  match w with
  | QComboBox items i =>
      Ok (if (i <? 0)%Z then py "None"
          else match nth_error items (Z.to_nat i) with
               | Some (_, data) => data
               | None => py "None"
               end)
  | _ => Raise AttributeError
  end.

(** The index loop of the enum branch: the first [i] whose item data equals
    [val]. *)
Fixpoint find_data (items : list (str * str)) (val : str) (i : Z) : option Z :=
  match items with
  | [] => None
  | (_, data) :: rest =>
      if str_eqb data val then Some i else find_data rest val (i + 1)
  end.

(** [str(n)] for an int *)
Definition str_of_int (n : Z) : str := py (NilZero.string_of_int (Z.to_int n)).

(** ** The Python runtime: [int(s)] *)

Section Runtime.

(** The decimal value of a character in the Unicode database of the
    interpreter ([Py_UNICODE_TODECIMAL]); the table is not part of the
    program. *)
Variable unicode_decimal : char -> option N.

(** [sys.get_int_max_str_digits()]; 0 switches the limit off. *)
Variable max_str_digits : nat.

(** [int] first maps a non-ASCII space to a blank and a non-ASCII decimal
    digit to its ASCII digit; any other non-ASCII character becomes [?]. *)
Definition to_ascii (c : char) : char :=
  if c <? 127 then c
  else if is_space c then 32
  else match unicode_decimal c with
       | Some d => 48 + d
       | None => 63
       end.

(** [Py_ISSPACE] *)
Definition c_isspace (c : char) : bool :=
  ((9 <=? c) && (c <=? 13)) || (c =? 32).

Definition digit_value (c : char) : option Z :=
  if (48 <=? c) && (c <=? 57) then Some (Z.of_N (c - 48)) else None.

Definition underscore : char := 95.

(** The digits of the literal: single underscores may stand between two
    digits.  Returns the value, the number of digits and the rest. *)
Fixpoint scan_digits (prev : char) (acc : Z) (digits : nat) (s : str)
  : option (Z * nat * str) :=
  match s with
  | c :: s' =>
      if c =? underscore then
        if prev =? underscore then None else scan_digits c acc digits s'
      else
        match digit_value c with
        | Some d => scan_digits c (10 * acc + d)%Z (S digits) s'
        | None => if prev =? underscore then None else Some (acc, digits, s)
        end
  | [] => if prev =? underscore then None else Some (acc, digits, [])
  end.

(** [int(s)] for a [str], base 10; [None] is [ValueError]. *)
Definition py_int (s : str) : option Z :=
  let s := snd (span c_isspace (map to_ascii s)) in
  let (negative, s) :=
    match s with
    | 43 :: s' => (false, s')
    | 45 :: s' => (true, s')
    | _ => (false, s)
    end in
  match s with
  | 95 :: _ => None
  | _ =>
      match scan_digits 0 0%Z 0%nat s with
      | None => None
      | Some (n, digits, rest) =>
          if (640 <? digits)%nat && (0 <? max_str_digits)%nat
             && (max_str_digits <? digits)%nat then None
          else if (digits =? 0)%nat then None
          else
            match snd (span c_isspace rest) with
            | [] => Some (if negative then (- n)%Z else n)
            | _ :: _ => None
            end
      end
  end.

(** ** [populate_widgets] *)

(** The plain spin box branch: parse, clamp and set inside [try]; any
    exception falls back to [min]. *)
Definition populate_spin (m : meta) (val : option str) (w : widget)
  : result widget :=
  let attempt :=
    match (match val with
           | Some s => py_int s
           | None => Some (get_min m)
           end) with
    | None => Raise ValueError
    | Some v => setValue (Z.max (get_min m) (Z.min (get_max m) v)) w
    end in
  match attempt with
  | Ok w' => Ok w'
  | Raise _ => setValue (get_min m) w
  end.

(** The composite branch: only the conversion is inside [try]; the value
    goes to the spin box and to the slider as it is. *)
Definition populate_fps (m : meta) (val : option str) (spin slider : ranged)
  : result widget :=
  let v :=
    match (match val with
           | Some s => py_int s
           | None => Some (get_min m)
           end) with
    | Some v => v
    | None => get_min m
    end in
  v1 <- c_int v ;;
  let (spin1, slider1) := spin_setValue_connected v1 spin slider in
  v2 <- c_int v ;;
  let (spin2, slider2) := slider_setValue_connected v2 spin1 slider1 in
  Ok (FpsContainer spin2 slider2).

(** The enum branch. *)
Definition populate_combo (val : option str) (w : widget) : result widget :=
  match w with
  | QComboBox items _ =>
      match (match val with
             | Some v => find_data items v 0
             | None => None
             end) with
      | Some i => setCurrentIndex i w
      | None => setCurrentIndex 0 w
      end
  | _ => Raise AttributeError
  end.

(** The body of the loop of [populate_widgets] for one entry of
    [self.widgets]. *)
Definition populate_widget (settings : dict str) (key : str) (w : widget)
  : result widget :=
  let val := dict_get settings key in
  match dict_get SETTINGS_SCHEMA key with
  | None => Ok w
  | Some m =>
      match mtype m with
      | TBool =>
          setChecked (match val with Some v => str_eqb v (py "1") | None => false end) w
      | TInt =>
          match w with
          | FpsContainer spin slider => populate_fps m val spin slider
          | _ => populate_spin m val w
          end
      | TEnum => populate_combo val w
      | TMeta => setText (match val with Some v => v | None => py "-" end) w
      end
  end.

(** The loop: the widgets as it leaves them, and the exception that ended
    it, if any. *)
Fixpoint populate_widgets (settings : dict str) (widgets : dict widget)
  : dict widget * option exn :=
  match widgets with
  | [] => ([], None)
  | (key, w) :: rest =>
      match populate_widget settings key w with
      | Ok w' =>
          let (rest', e) := populate_widgets settings rest in
          ((key, w') :: rest', e)
      | Raise e => (widgets, Some e)
      end
  end.

End Runtime.

(** ** [collect_widget_values] *)

(** The body of the loop for one entry of [self.widgets]. *)
Definition collect_widget_value (settings : dict str) (key : str) (w : widget)
  : result (dict str) :=
  match dict_get SETTINGS_SCHEMA key with
  | None => Ok settings
  | Some m =>
      match mtype m with
      | TBool =>
          b <- isChecked w ;;
          Ok (dict_set settings key (if b then py "1" else py "0"))
      | TInt =>
          match w with
          | FpsContainer spin _ => Ok (dict_set settings key (str_of_int (value spin)))
          | _ => v <- get_value w ;; Ok (dict_set settings key (str_of_int v))
          end
      | TEnum =>
          d <- currentData_str w ;; Ok (dict_set settings key d)
      | TMeta => Ok settings
      end
  end.

(** The loop: [self.settings] as it leaves it, and the exception that ended
    it, if any. *)
Fixpoint collect_widget_values (widgets : dict widget) (settings : dict str)
  : dict str * option exn :=
  match widgets with
  | [] => (settings, None)
  | (key, w) :: rest =>
      match collect_widget_value settings key w with
      | Ok settings' => collect_widget_values rest settings'
      | Raise e => (settings, Some e)
      end
  end.

(** ** Definitions used to state the properties *)

(** The store that the loops of [parse_config] build from a list of
    matches. *)
Definition store_of (ms : list (str * str)) : dict str :=
  fold_left set_pair ms [].

(** What [parse_config] guarantees about a key or a value. *)
Definition clean (s : str) : Prop :=
  s <> [] /\ ~ In dq s /\ forall c, In c s -> is_linebreak c = false.

(** [i] is the first item of a combo box whose data is [v]. *)
Definition first_match (items : list (str * str)) (v : str) (i : nat) : Prop :=
  (exists l, nth_error items i = Some (l, v)) /\
  forall j l d, (j < i)%nat -> nth_error items j = Some (l, d) -> d <> v.

Definition no_match (items : list (str * str)) (v : str) : Prop :=
  forall l d, In (l, d) items -> d <> v.


(** A table with the Arabic-Indic and the fullwidth digits only, to run
    examples. *)
Definition sample_decimal (c : char) : option N :=
  if (1632 <=? c) && (c <=? 1641) then Some (c - 1632)
  else if (65296 <=? c) && (c <=? 65305) then Some (c - 65296)
  else None.

(** A text with the key [a] on its first and on its third line. *)
Definition duplicate_text : str :=
  [dq] ++ py "a" ++ [dq; 32; dq] ++ py "1" ++ [dq; nl]
  ++ [dq] ++ py "b" ++ [dq; 32; dq] ++ py "2" ++ [dq; nl]
  ++ [dq] ++ py "a" ++ [dq; 32; dq] ++ py "3" ++ [dq].

(** A text with a pair and with fragments around it that are not pairs. *)
Definition fragments_text : str :=
  [dq] ++ py "a" ++ [dq; 32; dq] ++ py "b" ++ [nl]
  ++ py "{ " ++ [dq] ++ py "k" ++ [dq; tab; dq] ++ py "v" ++ [dq]
  ++ py " } junk" ++ [dq; nl; dq; dq; 32; dq; dq].

(** The widget of a schema key after [init_ui]. *)
Definition widget_of (key : str) (m : meta) : widget :=
  if str_eqb key (py "setting.max_fps") then fps_container else make_widget m.

(** What the proofs use of one schema entry. *)
Definition schema_fact (e : str * meta) : Prop :=
  dict_get init_ui (fst e) = Some (widget_of (fst e) (snd e))
  /\ (mtype (snd e) = TEnum -> options (snd e) <> [])
  /\ (mtype (snd e) = TInt ->
      (INT_MIN <= get_min (snd e) <= get_max (snd e))%Z
      /\ (get_max (snd e) <= INT_MAX)%Z).

(** The raw value an integer key decodes, before it is bounded. *)
Definition int_or_min (ud : char -> option N) (msd : nat) (m : meta)
    (val : option str) : Z :=
  match val with
  | None => get_min m
  | Some s => match py_int ud msd s with
              | Some v => v
              | None => get_min m
              end
  end.

(** A value of [setting.max_fps] too large for a C++ [int]. *)
Definition huge_fps : dict str :=
  [(py "setting.max_fps", py "99999999999999999999")].

(** A store with that frame limit and three more settings, as a file can
    hold them. *)
Definition huge_fps_session : dict str :=
  [(py "setting.max_fps", py "99999999999999999999");
   (py "setting.fullscreen", py "1");
   (py "setting.cpu_level", py "2");
   (py "setting.defaultres", py "1920")].

(** ** The editing session *)

(** [read_config_file], given the text of the file: the new
    [self.settings], and what [populate_widgets] then leaves. *)
Definition read_config_file (ud : char -> option N) (msd : nat) (raw : str)
    (widgets : dict widget) : dict str * (dict widget * option exn) :=
  let settings := parse_config raw in
  (settings, populate_widgets ud msd settings widgets).

(** [save_config], given the file name the dialog returned (empty when it
    was cancelled): the new [self.settings], the exception that ended the
    call, if any, and the text handed to [f.write], if any. *)
Definition save_config (fname : str) (widgets : dict widget) (settings : dict str)
  : dict str * option exn * option str :=
  let (settings1, e1) :=
    match settings with
    | [] => collect_widget_values widgets settings
    | _ :: _ => (settings, None)
    end in
  match e1 with
  | Some e => (settings1, Some e, None)
  | None =>
      match fname with
      | [] => (settings1, None, None)
      | _ :: _ =>
          let (settings2, e2) := collect_widget_values widgets settings1 in
          match e2 with
          | Some e => (settings2, Some e, None)
          | None => (settings2, None, Some (serialize_config settings2))
          end
      end
  end.

(** A key with a control the user can edit: a schema key that is not
    metadata. *)
Definition editable (key : str) : Prop :=
  match dict_get SETTINGS_SCHEMA key with
  | Some m => mtype m <> TMeta
  | None => False
  end.

(** [w] is the widget [w0] of [init_ui] in some state the user or
    [populate_widgets] can bring it to: the same kind, range and items, a
    value inside the range, an item selected, the slider following the spin
    box. *)
Definition shape_ok (w0 w : widget) : Prop :=
  match w0, w with
  | QLabel _, QLabel _ => True
  | QCheckBox t0 _, QCheckBox t _ => t = t0
  | QSpinBox b0, QSpinBox b =>
      minimum b = minimum b0 /\ maximum b = maximum b0
      /\ (minimum b <= value b <= maximum b)%Z
  | QComboBox items0 _, QComboBox items i =>
      items = items0 /\ (0 <= i < Z.of_nat (List.length items))%Z
  | FpsContainer s0 l0, FpsContainer s l =>
      minimum s = minimum s0 /\ maximum s = maximum s0
      /\ minimum l = minimum l0 /\ maximum l = maximum l0
      /\ (minimum s <= value s <= maximum s)%Z /\ value l = value s
  | _, _ => False
  end.

Definition widgets_ok (ws : dict widget) : Prop :=
  Forall2 (fun e0 e => fst e = fst e0 /\ shape_ok (snd e0) (snd e)) init_ui ws.

(** The raw string [collect_widget_values] writes for a widget. *)
Definition raw_of (w : widget) : option str :=
  match w with
  | QLabel _ => None
  | QCheckBox _ b => Some (if b then py "1" else py "0")
  | QSpinBox b => Some (str_of_int (value b))
  | QComboBox items i =>
      Some (if (i <? 0)%Z then py "None"
            else match nth_error items (Z.to_nat i) with
                 | Some (_, data) => data
                 | None => py "None"
                 end)
  | FpsContainer spin _ => Some (str_of_int (value spin))
  end.

(** What the loop of [collect_widget_values] writes when no widget method
    raises. *)
Definition write_one (settings : dict str) (e : str * widget) : dict str :=
  match raw_of (snd e) with
  | Some r => dict_set settings (fst e) r
  | None => settings
  end.

Definition write_back (widgets : dict widget) (settings : dict str) : dict str :=
  fold_left write_one widgets settings.

(** A store that [serialize_config] and [parse_config] carry without loss. *)
Definition store_ok (settings : dict str) : Prop :=
  NoDup (keys settings)
  /\ Forall (fun kv => clean (fst kv) /\ clean (snd kv)) settings.

(** The value of [setting.max_fps] fits a C++ [int]. *)
Definition fps_fits (ud : char -> option N) (msd : nat) (settings : dict str)
  : Prop :=
  (INT_MIN <= int_or_min ud msd (m_int "FPS Limit" 0 999 None)
                (dict_get settings (py "setting.max_fps")) <= INT_MAX)%Z.

(** [clean] as a test. *)
Definition clean_b (s : str) : bool :=
  match s with
  | [] => false
  | _ :: _ => forallb (fun c => negb (c =? dq) && negb (is_linebreak c)) s
  end.

(** The widgets of the editor after the user has ticked a box, typed a
    width and chosen an item. *)
Definition edited_ui : dict widget :=
  dict_set
    (dict_set
       (dict_set init_ui (py "setting.fullscreen") (QCheckBox [] true))
       (py "setting.defaultres") (QSpinBox (Ranged 320 7680 1920)))
    (py "setting.cpu_level")
    (QComboBox (map option_item (map py low_to_ultra)) 2).

(** [e'] is the entry [e] of [self.widgets] with the same state if it is
    an editable control, and still a label if it is one. *)
Definition kept (e e' : str * widget) : Prop :=
  fst e' = fst e
  /\ (raw_of (snd e) <> None -> e' = e)
  /\ (raw_of (snd e) = None -> raw_of (snd e') = None).

(** The raw value that stands for [val] once it has been shown and
    written back: 1 or 0 for a boolean, the bounded integer, the data of the
    matching option or of the first one. *)
Definition normalized (ud : char -> option N) (msd : nat) (m : meta)
    (val : option str) : str :=
  match mtype m with
  | TBool =>
      match val with
      | Some v => if str_eqb v (py "1") then py "1" else py "0"
      | None => py "0"
      end
  | TInt => str_of_int (qBound (get_min m) (int_or_min ud msd m val) (get_max m))
  | TEnum =>
      let items := map option_item (options m) in
      let first := match items with (_, d) :: _ => d | [] => py "None" end in
      match val with
      | Some v => if existsb (fun it => str_eqb (snd it) v) items then v else first
      | None => first
      end
  | TMeta => match val with Some v => v | None => [] end
  end.

(** The schema keys that are not metadata, in schema order. *)
Definition editable_keys : list str :=
  keys (filter (fun e => match mtype (snd e) with TMeta => false | _ => true end)
          SETTINGS_SCHEMA).

Definition has_raw (e : str * widget) : bool :=
  match raw_of (snd e) with Some _ => true | None => false end.

(** The decimal value of a string of digits, read from the left. *)
Definition digits_value (acc : Z) (s : str) : Z :=
  fold_left (fun a c => (10 * a + Z.of_N (c - 48))%Z) s acc.

Definition is_digit (c : char) : bool := (48 <=? c) && (c <=? 57).

(** ** The nickname that [scan_steam_users] reads from [localconfig.vdf] *)

(** [re.search(p, s)]: the match at the first place where there is one. *)
Fixpoint search (p : list item) (s : str) : option matched :=
  match match_here p s with
  | Some r => Some r
  | None =>
      match s with
      | [] => None
      | _ :: s' => search p s'
      end
  end.

Definition lit (c : char) : item := Item (N.eqb c) One.

(** The pattern of [scan_steam_users]: the quoted word PersonaName,
    whitespace, and a quoted group of one or more characters that are not
    quotes. *)
Definition persona_re : list item :=
  [lit dq] ++ map lit (py "PersonaName") ++
  [lit dq; Item is_space Plus; lit dq; Item not_dq Plus; lit dq].

(** [nickname = match.group(1)] when there is a match, else the empty
    string. *)
Definition persona_name (vdf : str) : str :=
  match search persona_re vdf with
  | Some (gs, _) => nth 15 gs []
  | None => []
  end.

(** * Properties *)

(** ** Strings and dictionaries *)

Lemma str_eqb_eq : forall a b, str_eqb a b = true <-> a = b.
Proof.
  induction a as [|x a IH]; destruct b as [|y b]; simpl; split; intro H;
    try reflexivity; try discriminate.
  - apply andb_true_iff in H as [Hx Hab]. apply N.eqb_eq in Hx.
    apply IH in Hab. congruence.
  - injection H as -> ->. rewrite N.eqb_refl. simpl. now apply IH.
Qed.

Lemma str_eqb_refl : forall a, str_eqb a a = true.
Proof. intro a. now apply str_eqb_eq. Qed.

Lemma str_eqb_neq : forall a b, str_eqb a b = false <-> a <> b.
Proof.
  intros a b. split; intro H.
  - intro E. apply str_eqb_eq in E. congruence.
  - destruct (str_eqb a b) eqn:E; [|reflexivity].
    apply str_eqb_eq in E. contradiction.
Qed.

Section Dict.
Context {V : Type}.
Implicit Types (d : dict V) (k : str) (v : V).

Lemma dict_get_set_same : forall d k v, dict_get (dict_set d k v) k = Some v.
Proof.
  induction d as [|[k' v'] d IH]; intros k v; simpl.
  - now rewrite str_eqb_refl.
  - destruct (str_eqb k k') eqn:E; simpl; rewrite E; auto.
Qed.

Lemma dict_get_set_other : forall d k k' v,
  k <> k' -> dict_get (dict_set d k v) k' = dict_get d k'.
Proof.
  induction d as [|[k0 v0] d IH]; intros k k' v Hne; simpl.
  - apply not_eq_sym in Hne. apply str_eqb_neq in Hne. now rewrite Hne.
  - destruct (str_eqb k k0) eqn:E; simpl.
    + apply str_eqb_eq in E. subst k0.
      apply not_eq_sym in Hne. apply str_eqb_neq in Hne. now rewrite Hne.
    + destruct (str_eqb k' k0); auto.
Qed.

Lemma dict_get_In : forall d k v, dict_get d k = Some v -> In (k, v) d.
Proof.
  induction d as [|[k0 v0] d IH]; intros k v; simpl; [discriminate|].
  destruct (str_eqb k k0) eqn:E.
  - apply str_eqb_eq in E. intros [= ->]. left. now subst.
  - intro H. right. auto.
Qed.

Lemma dict_get_None : forall d k, dict_get d k = None <-> ~ In k (keys d).
Proof.
  induction d as [|[k0 v0] d IH]; intros k; simpl.
  - tauto.
  - destruct (str_eqb k k0) eqn:E.
    + apply str_eqb_eq in E. subst. split; [discriminate | tauto].
    + apply str_eqb_neq in E. rewrite IH. split; intro H.
      * intros [H1|H1]; [congruence | contradiction].
      * tauto.
Qed.

Lemma dict_set_absent : forall d k v,
  ~ In k (keys d) -> dict_set d k v = d ++ [(k, v)].
Proof.
  induction d as [|[k0 v0] d IH]; intros k v Hn; simpl; [reflexivity|].
  simpl in Hn. destruct (str_eqb k k0) eqn:E.
  - apply str_eqb_eq in E. subst. tauto.
  - f_equal. apply IH. tauto.
Qed.

Lemma keys_dict_set_present : forall d k v,
  In k (keys d) -> keys (dict_set d k v) = keys d.
Proof.
  induction d as [|[k0 v0] d IH]; intros k v Hin; simpl; [destruct Hin|].
  destruct (str_eqb k k0) eqn:E; simpl; [reflexivity|].
  f_equal. apply IH. destruct Hin as [H|H]; [|exact H].
  apply str_eqb_neq in E. simpl in H. congruence.
Qed.

Lemma keys_dict_set : forall d k v,
  exists extra, keys (dict_set d k v) = keys d ++ extra
    /\ (extra = [] \/ extra = [k] /\ ~ In k (keys d)).
Proof.
  intros d k v. destruct (in_dec (list_eq_dec N.eq_dec) k (keys d)) as [Hin|Hn].
  - exists []. rewrite app_nil_r. split; [now apply keys_dict_set_present | now left].
  - exists [k]. rewrite dict_set_absent by exact Hn.
    unfold keys. rewrite map_app. simpl. split; [reflexivity | now right].
Qed.

Lemma dict_set_NoDup : forall d k v,
  NoDup (keys d) -> NoDup (keys (dict_set d k v)).
Proof.
  intros d k v Hnd. destruct (keys_dict_set d k v) as [extra [E [->|[-> Hn]]]];
    rewrite E.
  - now rewrite app_nil_r.
  - apply NoDup_app; [exact Hnd | constructor; [simpl; tauto | constructor] |].
    intros x Hx [<-|[]]. contradiction.
Qed.

Lemma dict_set_In : forall d k v k' v',
  In (k', v') (dict_set d k v) -> In (k', v') d \/ (k' = k /\ v' = v).
Proof.
  induction d as [|[k0 v0] d IH]; intros k v k' v'; simpl.
  - intros [[= <- <-]|[]]. now right.
  - destruct (str_eqb k k0) eqn:E; simpl.
    + apply str_eqb_eq in E. subst. intros [[= <- <-]|H]; auto.
    + intros [H|H]; auto. apply IH in H. tauto.
Qed.

End Dict.

(** ** The store built from a list of matches *)

Lemma fold_set_keeps : forall post d k v,
  ~ In k (keys post) -> dict_get d k = Some v ->
  dict_get (fold_left set_pair post d) k = Some v.
Proof.
  induction post as [|[k0 v0] post IH]; intros d k v Hn Hd; simpl; [exact Hd|].
  simpl in Hn. apply IH; [tauto|]. unfold set_pair; simpl.
  rewrite dict_get_set_other; [exact Hd | simpl; intro E; apply Hn; now left].
Qed.

Lemma fold_set_keys : forall ms d,
  exists extra, keys (fold_left set_pair ms d) = keys d ++ extra.
Proof.
  induction ms as [|[k v] ms IH]; intros d; simpl.
  - exists []. now rewrite app_nil_r.
  - unfold set_pair at 2; simpl.
    destruct (IH (dict_set d k v)) as [e1 E1].
    destruct (keys_dict_set d k v) as [e0 [E0 _]].
    exists (e0 ++ e1). now rewrite E1, E0, app_assoc.
Qed.

Lemma fold_set_NoDup : forall ms d,
  NoDup (keys d) -> NoDup (keys (fold_left set_pair ms d)).
Proof.
  induction ms as [|[k v] ms IH]; intros d Hd; simpl; [exact Hd|].
  apply IH. now apply dict_set_NoDup.
Qed.

Lemma fold_set_In : forall ms d k v,
  In (k, v) (fold_left set_pair ms d) -> In (k, v) d \/ In (k, v) ms.
Proof.
  induction ms as [|[k0 v0] ms IH]; intros d k v H; simpl in *; [now left|].
  apply IH in H as [H|H]; [|now right; right].
  unfold set_pair in H; simpl in H. apply dict_set_In in H as [H|[-> ->]]; [now left | right; now left].
Qed.

Lemma fold_set_key_origin : forall ms d k,
  In k (keys (fold_left set_pair ms d)) -> In k (keys d) \/ In k (keys ms).
Proof.
  intros ms d k H. unfold keys in *. apply in_map_iff in H as [[k' v] [E H]].
  simpl in E. subst k'. apply fold_set_In in H as [H|H]; [left|right];
    apply in_map_iff; now exists (k, v).
Qed.

Lemma fold_set_fresh : forall ms d,
  NoDup (keys (d ++ ms)) -> fold_left set_pair ms d = d ++ ms.
Proof.
  induction ms as [|[k v] ms IH]; intros d Hnd; simpl.
  - now rewrite app_nil_r.
  - assert (Hk : ~ In k (keys d)).
    { unfold keys in *. rewrite map_app in Hnd. simpl in Hnd.
      apply NoDup_remove_2 in Hnd. intro H. apply Hnd. apply in_or_app. now left. }
    unfold set_pair at 2; simpl. rewrite dict_set_absent by exact Hk.
    rewrite IH; rewrite <- app_assoc; [reflexivity | exact Hnd].
Qed.

Lemma store_of_NoDup : forall ms, NoDup (keys (store_of ms)).
Proof. intro ms. apply fold_set_NoDup. constructor. Qed.

Lemma parse_config_store_of : forall t, parse_config t = store_of (all_matches t).
Proof. reflexivity. Qed.

(** ** The matcher *)

Lemma span_spec : forall p s a r,
  span p s = (a, r) ->
  s = a ++ r /\ forallb p a = true /\
  match r with [] => True | c :: _ => p c = false end.
Proof.
  induction s as [|c s IH]; intros a r; simpl.
  - intros [= <- <-]. auto.
  - destruct (p c) eqn:E.
    + destruct (span p s) as [a' r']. intros [= <- <-].
      destruct (IH a' r' eq_refl) as [Hs [Ha Hr]]. subst s. simpl.
      rewrite Ha, E. auto.
    + intros [= <- <-]. simpl. auto.
Qed.

Lemma span_app : forall p a r,
  forallb p a = true ->
  match r with [] => True | c :: _ => p c = false end ->
  span p (a ++ r) = (a, r).
Proof.
  induction a as [|c a IH]; intros r Ha Hr; simpl.
  - destruct r as [|c r]; [reflexivity|]. simpl. now rewrite Hr.
  - simpl in Ha. apply andb_true_iff in Ha as [Hc Ha].
    rewrite Hc, (IH r Ha Hr). reflexivity.
Qed.

Lemma plus_loop_det : forall cl k,
  (forall c s, cl c = true -> k (c :: s) = None) ->
  forall s acc,
    plus_loop cl k acc s = push (acc ++ fst (span cl s)) (k (snd (span cl s))).
Proof.
  intros cl k Hk. induction s as [|c s IH]; intros acc; simpl.
  - now rewrite app_nil_r.
  - destruct (cl c) eqn:E.
    + rewrite IH. destruct (span cl s) as [a r]. simpl.
      rewrite <- app_assoc. simpl. rewrite (Hk c s E).
      now destruct (push (acc ++ c :: a) (k r)).
    + simpl. now rewrite app_nil_r.
Qed.

(** A greedy [+] never has to give characters back when what follows it
    cannot start with a character of its class. *)
Lemma match_plus_det : forall cl p' s,
  (forall c s', cl c = true -> match_here p' (c :: s') = None) ->
  match_here (Item cl Plus :: p') s =
    match fst (span cl s) with
    | [] => None
    | g => push g (match_here p' (snd (span cl s)))
    end.
Proof.
  intros cl p' s Hk. destruct s as [|c s]; simpl; [reflexivity|].
  destruct (cl c) eqn:E; simpl; [|reflexivity].
  rewrite (plus_loop_det cl (match_here p') Hk).
  now destruct (span cl s).
Qed.

Lemma is_space_not_dq : forall c, is_space c = true -> is_dq c = false.
Proof.
  intros c H. unfold is_dq. destruct (c =? dq) eqn:E; [|reflexivity].
  apply N.eqb_eq in E. subst c. discriminate H.
Qed.

Lemma not_dq_not_dq : forall c, not_dq c = true -> is_dq c = false.
Proof. unfold not_dq, is_dq. intros c H. now apply negb_true_iff in H. Qed.

Lemma is_dq_eq : forall c, is_dq c = true <-> c = dq.
Proof. intro c. unfold is_dq. apply N.eqb_eq. Qed.

Lemma one_dq_blocks : forall cl p',
  (forall c, cl c = true -> is_dq c = false) ->
  forall c s', cl c = true -> match_here (Item is_dq One :: p') (c :: s') = None.
Proof. intros cl p' H c s' Hc. simpl. now rewrite (H c Hc). Qed.

Lemma forallb_not_dq : forall s, forallb not_dq s = true <-> ~ In dq s.
Proof.
  induction s as [|c s IH]; simpl; [tauto|].
  rewrite andb_true_iff, IH. unfold not_dq. rewrite negb_true_iff, N.eqb_neq.
  intuition congruence.
Qed.

Lemma match_one_eq : forall cl p' c s,
  match_here (Item cl One :: p') (c :: s) =
    if cl c then push [c] (match_here p' s) else None.
Proof. reflexivity. Qed.

Lemma match_one_nil : forall it p', match_here (it :: p') [] = None.
Proof. reflexivity. Qed.

Ltac plus_step H :=
  rewrite match_plus_det in H
    by (apply one_dq_blocks; auto using is_space_not_dq, not_dq_not_dq).

(** What a match of [pair_re] looks like. *)
Lemma pair_match_sound : forall s k v rest,
  pair_match s = Some (k, v, rest) ->
  exists w,
    s = dq :: k ++ dq :: w ++ dq :: v ++ dq :: rest
    /\ k <> [] /\ forallb not_dq k = true
    /\ w <> [] /\ forallb is_space w = true
    /\ v <> [] /\ forallb not_dq v = true.
Proof.
  intros s k v rest H. unfold pair_match, pair_re in H.
  destruct s as [|c0 s0]; [discriminate|].
  rewrite match_one_eq in H. destruct (is_dq c0) eqn:E0; [|discriminate].
  plus_step H. destruct (span not_dq s0) as [g1 r1] eqn:S1. cbn [fst snd] in H.
  destruct g1 as [|x1 g1]; [discriminate|].
  destruct r1 as [|c1 r1]; [discriminate|].
  rewrite match_one_eq in H. destruct (is_dq c1) eqn:E1; [|discriminate].
  plus_step H. destruct (span is_space r1) as [g2 r2] eqn:S2. cbn [fst snd] in H.
  destruct g2 as [|x2 g2]; [discriminate|].
  destruct r2 as [|c2 r2]; [discriminate|].
  rewrite match_one_eq in H. destruct (is_dq c2) eqn:E2; [|discriminate].
  plus_step H. destruct (span not_dq r2) as [g3 r3] eqn:S3. cbn [fst snd] in H.
  destruct g3 as [|x3 g3]; [discriminate|].
  destruct r3 as [|c3 r3]; [discriminate|].
  rewrite match_one_eq in H. destruct (is_dq c3) eqn:E3; [|discriminate].
  cbn in H. injection H as <- <- <-.
  apply is_dq_eq in E0, E1, E2, E3. subst.
  apply span_spec in S1 as [-> [F1 _]].
  apply span_spec in S2 as [-> [F2 _]].
  apply span_spec in S3 as [-> [F3 _]].
  exists (x2 :: g2). repeat split; try discriminate; assumption.
Qed.

(** Every text of that shape is matched, with these groups. *)
Lemma pair_match_complete : forall k w v rest,
  k <> [] -> forallb not_dq k = true ->
  w <> [] -> forallb is_space w = true ->
  v <> [] -> forallb not_dq v = true ->
  pair_match (dq :: k ++ dq :: w ++ dq :: v ++ dq :: rest) = Some (k, v, rest).
Proof.
  intros k w v rest Hk Fk Hw Fw Hv Fv. unfold pair_match, pair_re.
  rewrite match_one_eq. change (is_dq dq) with true. cbv iota.
  rewrite match_plus_det
    by (apply one_dq_blocks; auto using is_space_not_dq, not_dq_not_dq).
  rewrite (span_app not_dq k _ Fk) by reflexivity. cbn [fst snd].
  destruct k as [|x1 k]; [contradiction|].
  rewrite match_one_eq. change (is_dq dq) with true. cbv iota.
  rewrite match_plus_det
    by (apply one_dq_blocks; auto using is_space_not_dq, not_dq_not_dq).
  rewrite (span_app is_space w _ Fw) by reflexivity. cbn [fst snd].
  destruct w as [|x2 w]; [contradiction|].
  rewrite match_one_eq. change (is_dq dq) with true. cbv iota.
  rewrite match_plus_det
    by (apply one_dq_blocks; auto using is_space_not_dq, not_dq_not_dq).
  rewrite (span_app not_dq v _ Fv) by reflexivity. cbn [fst snd].
  destruct v as [|x3 v]; [contradiction|].
  rewrite match_one_eq. change (is_dq dq) with true. cbv iota.
  reflexivity.
Qed.

Lemma pair_match_shorter : forall s k v rest,
  pair_match s = Some (k, v, rest) -> (List.length rest < List.length s)%nat.
Proof.
  intros s k v rest H. apply pair_match_sound in H as [w [-> _]].
  cbn [List.length]. repeat (rewrite length_app; cbn [List.length]). lia.
Qed.

(** Fuel beyond the length of the line changes nothing. *)
Lemma finditer_from_enough : forall n s,
  (List.length s < n)%nat -> finditer_from n s = finditer s.
Proof.
  assert (G : forall n m s, (List.length s < n)%nat -> (List.length s < m)%nat ->
                            finditer_from n s = finditer_from m s).
  { induction n as [|n IH]; intros m s Hn Hm; [lia|].
    destruct m as [|m]; [lia|]. simpl.
    destruct (pair_match s) as [[[k v] rest]|] eqn:E.
    - apply pair_match_shorter in E. f_equal. apply IH; lia.
    - destruct s as [|c s]; [reflexivity|]. simpl in Hn, Hm. apply IH; lia. }
  intros n s H. unfold finditer. apply G; lia.
Qed.

(** Every pair that [finditer] yields is a match at some place of the
    line. *)
Lemma finditer_from_sound : forall n s k v,
  In (k, v) (finditer_from n s) ->
  exists pre suf rest, s = pre ++ suf /\ pair_match suf = Some (k, v, rest).
Proof.
  induction n as [|n IH]; intros s k v H; simpl in H; [destruct H|].
  destruct (pair_match s) as [[[k0 v0] rest]|] eqn:E.
  - destruct H as [[= <- <-]|H].
    + exists [], s, rest. auto.
    + apply IH in H as [pre [suf [rest' [-> H]]]].
      apply pair_match_sound in E as [w [-> _]].
      eexists (dq :: k0 ++ dq :: w ++ dq :: v0 ++ dq :: pre), suf, rest'.
      split; [|exact H].
      cbn [app]. repeat (rewrite <- app_assoc; cbn [app]). reflexivity.
  - destruct s as [|c s]; [destruct H|].
    apply IH in H as [pre [suf [rest' [-> H]]]].
    exists (c :: pre), suf, rest'. auto.
Qed.

(** ** Lines *)

Lemma splitlines_chars : forall s l c,
  In l (splitlines s) -> In c l -> In c s /\ is_linebreak c = false.
Proof.
  intro s. remember (List.length s) as n eqn:Hn.
  assert (Hle : (List.length s <= n)%nat) by lia. clear Hn. revert s Hle.
  induction n as [|n IH]; intros s Hle l c Hl Hc.
  - destruct s; [destruct Hl | simpl in Hle; lia].
  - destruct s as [|x s]; [destruct Hl|]. simpl in Hle, Hl.
    destruct (is_linebreak x) eqn:Ex.
    + destruct Hl as [<-|Hl]; [destruct Hc|].
      destruct s as [|d s'].
      * destruct Hl.
      * destruct ((x =? cr) && (d =? nl)).
        -- destruct (IH s' ltac:(simpl in Hle; lia) l c Hl Hc) as [H1 H2].
           split; [right; right; exact H1 | exact H2].
        -- destruct (IH (d :: s') ltac:(simpl in *; lia) l c Hl Hc) as [H1 H2].
           split; [right; exact H1 | exact H2].
    + destruct (splitlines s) as [|l0 ls] eqn:Es.
      * destruct Hl as [<-|[]]. destruct Hc as [<-|[]]. split; [now left | exact Ex].
      * destruct Hl as [<-|Hl].
        -- destruct Hc as [<-|Hc]; [split; [now left | exact Ex]|].
           destruct (IH s ltac:(lia) l0 c) as [H1 H2];
             [rewrite Es; now left | exact Hc |].
           split; [right; exact H1 | exact H2].
        -- destruct (IH s ltac:(lia) l c) as [H1 H2];
             [rewrite Es; now right | exact Hc |].
           split; [right; exact H1 | exact H2].
Qed.

Lemma splitlines_app_nl : forall p rest,
  (forall c, In c p -> is_linebreak c = false) ->
  splitlines (p ++ nl :: rest) = p :: splitlines rest.
Proof.
  induction p as [|c p IH]; intros rest Hp.
  - cbn [app]. destruct rest as [|d rest]; reflexivity.
  - cbn [app splitlines]. rewrite (Hp c (or_introl eq_refl)).
    rewrite IH; [reflexivity|]. intros c' Hc'. apply Hp. now right.
Qed.

Lemma splitlines_single : forall p,
  p <> [] -> (forall c, In c p -> is_linebreak c = false) -> splitlines p = [p].
Proof.
  induction p as [|c p IH]; intros Hne Hp; [contradiction|].
  cbn [splitlines]. rewrite (Hp c (or_introl eq_refl)).
  destruct p as [|d p]; [reflexivity|].
  rewrite IH; [reflexivity | discriminate |].
  intros c' Hc'. apply Hp. now right.
Qed.

Lemma join_cons : forall sep p lines last,
  join sep (p :: lines ++ [last]) = p ++ sep ++ join sep (lines ++ [last]).
Proof. intros sep p lines last. destruct lines; reflexivity. Qed.

Lemma splitlines_join : forall lines last,
  (forall l c, In l lines -> In c l -> is_linebreak c = false) ->
  (forall c, In c last -> is_linebreak c = false) ->
  last <> [] ->
  splitlines (join [nl] (lines ++ [last])) = lines ++ [last].
Proof.
  induction lines as [|p lines IH]; intros last Hl Hlast Hne.
  - cbn [app join]. now apply splitlines_single.
  - cbn [app]. rewrite join_cons. cbn [app]. rewrite splitlines_app_nl.
    + rewrite IH; auto. intros l c H. apply Hl. now right.
    + intros c Hc. apply (Hl p c); [now left | exact Hc].
Qed.

(** ** The matches of a text *)

Lemma clean_forallb : forall s, clean s -> s <> [] /\ forallb not_dq s = true.
Proof. intros s [H1 [H2 _]]. split; [exact H1 | now apply forallb_not_dq]. Qed.

Lemma all_matches_clean : forall t k v,
  In (k, v) (all_matches t) -> clean k /\ clean v.
Proof.
  intros t k v H. unfold all_matches in H.
  apply in_flat_map in H as [line [Hline H]].
  apply finditer_from_sound in H as [pre [suf [rest [Eline H]]]].
  apply pair_match_sound in H as [w [Esuf [Hk [Fk [_ [_ [Hv Fv]]]]]]].
  assert (Hin : forall c, In c k \/ In c v -> is_linebreak c = false).
  { intros c Hc. apply (splitlines_chars t line c Hline).
    rewrite Eline, Esuf. apply in_or_app. right. right.
    apply in_or_app. destruct Hc as [Hc|Hc]; [now left|].
    right. right. apply in_or_app. right. right. apply in_or_app. now left. }
  split; (split; [assumption | split; [now apply forallb_not_dq | auto]]).
Qed.

Lemma parse_config_In : forall t k v,
  In (k, v) (parse_config t) -> In (k, v) (all_matches t).
Proof.
  intros t k v H. apply fold_set_In in H as [[]|H]. exact H.
Qed.

Lemma finditer_from_nil : forall n, finditer_from n [] = [].
Proof. destruct n; reflexivity. Qed.

Lemma finditer_pair_line : forall k v,
  clean k -> clean v -> finditer (pair_line (k, v)) = [(k, v)].
Proof.
  intros k v Hk Hv. apply clean_forallb in Hk as [Hk Fk].
  apply clean_forallb in Hv as [Hv Fv].
  unfold finditer, pair_line. cbn [fst snd app List.length finditer_from].
  replace (pair_match (tab :: dq :: k ++ dq :: tab :: tab :: dq :: v ++ [dq]))
    with (@None (str * str * str)) by reflexivity.
  change (dq :: k ++ dq :: tab :: tab :: dq :: v ++ [dq])
    with (dq :: k ++ dq :: [tab; tab] ++ dq :: v ++ dq :: []).
  rewrite pair_match_complete by (auto; discriminate).
  reflexivity.
Qed.

Lemma all_matches_serialize : forall s,
  Forall (fun kv => clean (fst kv) /\ clean (snd kv)) s ->
  all_matches (serialize_config s) = s.
Proof.
  intros s Hs. unfold all_matches, serialize_config, serialize_lines.
  rewrite app_assoc, splitlines_join.
  - rewrite !flat_map_app. cbn [flat_map]. rewrite app_nil_r.
    change (finditer (dq :: py "video.cfg" ++ [dq])) with (@nil (str * str)).
    change (finditer (py "{")) with (@nil (str * str)).
    change (finditer (py "}")) with (@nil (str * str)).
    cbn [app]. rewrite ?app_nil_r.
    induction Hs as [|[k v] s [Hk Hv] Hs IH]; [reflexivity|].
    cbn [map flat_map]. rewrite finditer_pair_line by assumption.
    cbn [app]. now rewrite IH.
  - intros l c Hl Hc. apply in_app_or in Hl as [Hl|Hl].
    + destruct Hl as [<-|[<-|[]]]; revert c Hc;
        apply Forall_forall; repeat constructor.
    + apply in_map_iff in Hl as [[k v] [<- Hkv]].
      rewrite Forall_forall in Hs. destruct (Hs _ Hkv) as [[_ [_ Hk]] [_ [_ Hv]]].
      unfold pair_line in Hc. cbn [fst snd app] in Hc.
      destruct Hc as [<-|[<-|Hc]]; [reflexivity | reflexivity |].
      apply in_app_or in Hc as [Hc|Hc]; [now apply Hk|].
      destruct Hc as [<-|[<-|[<-|[<-|Hc]]]]; try reflexivity.
      apply in_app_or in Hc as [Hc|[<-|[]]]; [now apply Hv | reflexivity].
  - intros c [<-|[]]. reflexivity.
  - discriminate.
Qed.

Lemma roundtrip_store : forall s,
  NoDup (keys s) ->
  Forall (fun kv => clean (fst kv) /\ clean (snd kv)) s ->
  parse_config (serialize_config s) = s.
Proof.
  intros s Hnd Hs. unfold parse_config. rewrite all_matches_serialize by exact Hs.
  now rewrite fold_set_fresh.
Qed.

(** ** The parser and the serializer *)

(** C1. Round trip: serializing the store that [parse_config] returns for
    any text and parsing the result again gives the same store, with the
    same keys, the same values and the same order. *)
Theorem parse_serialize_roundtrip : forall t,
  parse_config (serialize_config (parse_config t)) = parse_config t.
Proof.
  intro t. apply roundtrip_store.
  - apply store_of_NoDup.
  - apply Forall_forall. intros [k v] H. cbn [fst snd].
    apply parse_config_In in H. now apply (all_matches_clean t).
Qed.

(** C2. Duplicate keys: when a key is matched more than once in a text,
    the store holds the value of its last match, and the key stands where
    its first match put it: right after the keys seen before that match,
    and nowhere else. *)
Theorem parse_config_duplicate_key : forall t pre k v1 mid v2 post,
  all_matches t = pre ++ (k, v1) :: mid ++ (k, v2) :: post ->
  ~ In k (keys pre) ->
  ~ In k (keys post) ->
  dict_get (parse_config t) k = Some v2 /\
  exists tail,
    keys (parse_config t) = keys (store_of pre) ++ k :: tail /\ ~ In k tail.
Proof.
  intros t pre k v1 mid v2 post E Hpre Hpost.
  rewrite parse_config_store_of, E. unfold store_of. split.
  - rewrite fold_left_app. cbn [fold_left]. rewrite fold_left_app. cbn [fold_left].
    apply fold_set_keeps; [exact Hpost|].
    unfold set_pair at 2. cbn [fst snd]. apply dict_get_set_same.
  - rewrite fold_left_app. cbn [fold_left].
    assert (Hk : ~ In k (keys (fold_left set_pair pre []))).
    { intro H. apply fold_set_key_origin in H as [[]|H]. contradiction. }
    unfold set_pair at 2. cbn [fst snd]. rewrite dict_set_absent by exact Hk.
    destruct (fold_set_keys (mid ++ (k, v2) :: post)
                (fold_left set_pair pre [] ++ [(k, v1)])) as [tail Et].
    exists tail. split.
    + rewrite Et. unfold keys. rewrite map_app, <- app_assoc. reflexivity.
    + assert (Hnd : NoDup (keys (fold_left set_pair (mid ++ (k, v2) :: post)
                                   (fold_left set_pair pre [] ++ [(k, v1)])))).
      { apply fold_set_NoDup. unfold keys. rewrite map_app. cbn [map fst].
        apply NoDup_app; [apply store_of_NoDup | repeat constructor; simpl; tauto |].
        intros x Hx [<-|[]]. contradiction. }
      rewrite Et in Hnd. unfold keys in Hnd. rewrite map_app, <- app_assoc in Hnd.
      cbn [map fst app] in Hnd. apply NoDup_remove_2 in Hnd.
      intro H. apply Hnd. apply in_or_app. now right.
Qed.

Lemma parse_config_duplicate_key_witness :
  parse_config duplicate_text = [(py "a", py "3"); (py "b", py "2")] /\
  dict_get (parse_config duplicate_text) (py "a") = Some (py "3") /\
  exists tail,
    keys (parse_config duplicate_text) = keys (store_of []) ++ py "a" :: tail
    /\ ~ In (py "a") tail.
Proof.
  split; [reflexivity|].
  apply (parse_config_duplicate_key duplicate_text []
           (py "a") (py "1") [(py "b", py "2")] (py "3") []).
  - reflexivity.
  - simpl. tauto.
  - simpl. tauto.
Defined.

Lemma join_two : forall sep a b (f : str * str -> str) s c,
  join sep (a :: b :: map f s ++ [c]) =
    a ++ sep ++ b ++ sep ++ join sep (map f s ++ [c]).
Proof. intros sep a b f s c. destruct s; reflexivity. Qed.

Lemma join_lines : forall (f : str * str -> str) s last,
  join [nl] (map f s ++ [last]) = flat_map (fun kv => f kv ++ [nl]) s ++ last.
Proof.
  induction s as [|kv s IH]; intros last; [reflexivity|].
  cbn [map app flat_map]. rewrite join_cons, IH, <- !app_assoc. reflexivity.
Qed.

(** C4. Format: the header line, a line with the opening brace, one line
    per pair in store order (a tab, the quoted key, two tabs, the quoted
    value), and the closing brace with nothing after it; and the literal
    text for the store with the one pair [setting.fullscreen] = [1]. *)
Theorem serialize_config_format :
  (forall s,
     serialize_config s =
       [dq] ++ py "video.cfg" ++ [dq; nl] ++ py "{" ++ [nl]
       ++ flat_map (fun kv => [tab; dq] ++ fst kv ++ [dq; tab; tab; dq]
                                ++ snd kv ++ [dq; nl]) s
       ++ py "}")
  /\ serialize_config [(py "setting.fullscreen", py "1")] =
       [dq] ++ py "video.cfg" ++ [dq; nl] ++ py "{" ++ [nl; tab; dq]
       ++ py "setting.fullscreen" ++ [dq; tab; tab; dq] ++ py "1" ++ [dq; nl]
       ++ py "}".
Proof.
  split; [|reflexivity].
  intro s. unfold serialize_config, serialize_lines.
  change ([dq :: py "video.cfg" ++ [dq]; py "{"] ++ map pair_line s ++ [py "}"])
    with ((dq :: py "video.cfg" ++ [dq]) :: py "{" :: map pair_line s ++ [py "}"]).
  rewrite join_two, join_lines.
  rewrite (flat_map_ext (fun kv => pair_line kv ++ [nl])
             (fun kv => [tab; dq] ++ fst kv ++ [dq; tab; tab; dq]
                          ++ snd kv ++ [dq; nl])).
  - cbn [app]. rewrite <- !app_assoc. reflexivity.
  - intros [k v]. unfold pair_line. cbn [fst snd app].
    rewrite <- !app_assoc. cbn [app]. rewrite <- !app_assoc. reflexivity.
Qed.

Lemma no_quote_no_match : forall t, ~ In dq t -> all_matches t = [].
Proof.
  intros t Hn. destruct (all_matches t) as [|[k v] ms] eqn:E; [reflexivity|].
  exfalso. apply Hn.
  assert (H : In (k, v) (all_matches t)) by (rewrite E; now left).
  unfold all_matches in H. apply in_flat_map in H as [line [Hline H]].
  apply finditer_from_sound in H as [pre [suf [rest [Eline H]]]].
  apply pair_match_sound in H as [w [Esuf _]].
  apply (splitlines_chars t line dq Hline).
  rewrite Eline, Esuf. apply in_or_app. right. now left.
Qed.

(** C8. [parse_config] is total: for every text it returns a store (the
    scan of a line never stops for want of fuel), a store has each key once
    and holds nothing but matched pairs, and a text without a pair, such as
    one without a quote or one of structural tokens only, gives the empty
    store; fragments around a pair are dropped. *)
Theorem parse_config_total :
  (forall t,
     NoDup (keys (parse_config t))
     /\ (forall k v, In (k, v) (parse_config t) -> In (k, v) (all_matches t))
     /\ (all_matches t = [] -> parse_config t = [])
     /\ (~ In dq t -> parse_config t = []))
  /\ (forall line n, (List.length line < n)%nat ->
                     finditer_from n line = finditer line)
  /\ parse_config [] = []
  /\ parse_config ([dq] ++ py "video.cfg" ++ [dq; nl] ++ py "{" ++ [nl] ++ py "}") = []
  /\ parse_config fragments_text = [(py "k", py "v")].
Proof.
  split; [|split; [|repeat split]].
  - intro t. split; [apply store_of_NoDup|].
    split; [apply parse_config_In|].
    split.
    + intro E. unfold parse_config. now rewrite E.
    + intro Hn. unfold parse_config. now rewrite no_quote_no_match.
  - intros line n. apply finditer_from_enough.
Qed.

(** C10. Every key and every value of a parsed store is non-empty and has
    no double quote, no newline and no other line boundary in it; a pair
    with an empty key or an empty value is not produced. *)
Theorem parse_config_entries_clean :
  (forall t,
     Forall (fun kv =>
               (fst kv <> [] /\ ~ In dq (fst kv) /\ ~ In nl (fst kv)
                /\ forall c, In c (fst kv) -> is_linebreak c = false)
               /\ (snd kv <> [] /\ ~ In dq (snd kv) /\ ~ In nl (snd kv)
                   /\ forall c, In c (snd kv) -> is_linebreak c = false))
            (parse_config t))
  /\ parse_config ([dq; dq; 32; dq] ++ py "v" ++ [dq]) = []
  /\ parse_config ([dq] ++ py "k" ++ [dq; 32; dq; dq]) = [].
Proof.
  split; [|split; reflexivity].
  intro t. apply Forall_forall. intros [k v] H. cbn [fst snd].
  apply parse_config_In in H. apply all_matches_clean in H as [Hk Hv].
  destruct Hk as [K1 [K2 K3]]. destruct Hv as [V1 [V2 V3]].
  repeat split; auto; intro H; [apply K3 in H | apply V3 in H]; discriminate H.
Qed.

(** ** The schema and the widgets of [init_ui] *)

Lemma schema_facts : Forall schema_fact SETTINGS_SCHEMA.
Proof.
  unfold SETTINGS_SCHEMA. cbn [map].
  repeat (apply Forall_cons;
          [ split; [vm_compute; reflexivity|];
            split; intro H; cbn in H;
            [ first [discriminate H | discriminate]
            | first [discriminate H | unfold INT_MIN, INT_MAX; cbn; lia] ]
          | ]).
  apply Forall_nil.
Qed.

Lemma schema_fact_of : forall key m,
  dict_get SETTINGS_SCHEMA key = Some m -> schema_fact (key, m).
Proof.
  intros key m H. apply dict_get_In in H.
  exact (proj1 (Forall_forall _ _) schema_facts _ H).
Qed.

Lemma widget_of_other : forall key m,
  dict_get SETTINGS_SCHEMA key = Some m -> mtype m <> TInt ->
  widget_of key m = make_widget m.
Proof.
  intros key m H Hty. unfold widget_of.
  destruct (str_eqb key (py "setting.max_fps")) eqn:E; [|reflexivity].
  apply str_eqb_eq in E. subst key. vm_compute in H. injection H as <-.
  now contradiction Hty.
Qed.

Lemma init_ui_keys_in_schema : forall key,
  dict_get SETTINGS_SCHEMA key = None -> dict_get init_ui key = None.
Proof.
  intros key H. apply dict_get_None. intro Hin.
  assert (F : Forall (fun k => dict_get SETTINGS_SCHEMA k <> None) (keys init_ui)).
  { vm_compute. repeat (constructor; [discriminate|]). constructor. }
  exact (proj1 (Forall_forall _ _) F _ Hin H).
Qed.

Lemma fold_add_option : forall opts items i,
  (0 <= i)%Z ->
  fold_left add_option opts (items, i) = (items ++ map option_item opts, i).
Proof.
  induction opts as [|o opts IH]; intros items i Hi; cbn [fold_left map].
  - now rewrite app_nil_r.
  - unfold add_option at 2, addItem. cbn [fst snd].
    destruct (i <? 0)%Z eqn:E; [apply Z.ltb_lt in E; lia|].
    rewrite IH by exact Hi. rewrite <- app_assoc.
    now destruct (option_item o).
Qed.

Lemma make_combo_eq : forall opts,
  make_combo opts =
    QComboBox (map option_item opts) (match opts with [] => -1 | _ => 0 end)%Z.
Proof.
  intros [|o opts]; [reflexivity|]. unfold make_combo. cbn [fold_left].
  unfold add_option at 2, addItem. cbn [fst snd app].
  change (-1 <? 0)%Z with true. cbv iota.
  rewrite fold_add_option by lia. cbn [map]. destruct (option_item o). reflexivity.
Qed.

(** ** The enum branch *)

Lemma find_data_some : forall items v base i,
  find_data items v base = Some i ->
  (base <= i)%Z /\ first_match items v (Z.to_nat (i - base)).
Proof.
  induction items as [|[l d] items IH]; intros v base i H; simpl in H;
    [discriminate|].
  destruct (str_eqb d v) eqn:E.
  - injection H as <-. apply str_eqb_eq in E. subst d.
    rewrite Z.sub_diag. split; [lia|]. split; [now exists l | intros; lia].
  - apply IH in H as [Hle [[l' Hn] Hbefore]]. split; [lia|].
    replace (Z.to_nat (i - base)) with (S (Z.to_nat (i - (base + 1)))) by lia.
    split; [now exists l'|].
    intros [|j] l0 d0 Hj Hnth; simpl in Hnth.
    + injection Hnth as <- <-. now apply str_eqb_neq.
    + apply (Hbefore j l0 d0); [lia | exact Hnth].
Qed.

Lemma find_data_none : forall items v base,
  find_data items v base = None -> no_match items v.
Proof.
  induction items as [|[l d] items IH]; intros v base H l0 d0 Hin;
    [destruct Hin|].
  simpl in H. destruct (str_eqb d v) eqn:E; [discriminate|].
  destruct Hin as [[= <- <-]|Hin]; [now apply str_eqb_neq | eapply IH; eauto].
Qed.

Lemma populate_combo_spec : forall items i1 val,
  items <> [] ->
  exists i,
    populate_combo val (QComboBox items i1) = Ok (QComboBox items i)
    /\ match val with
       | Some v => (0 <= i)%Z /\ first_match items v (Z.to_nat i)
                   \/ no_match items v /\ i = 0%Z
       | None => i = 0%Z
       end.
Proof.
  intros items i1 val Hne.
  assert (H0 : setCurrentIndex 0 (QComboBox items i1) = Ok (QComboBox items 0)).
  { destruct items; [contradiction|]. reflexivity. }
  destruct val as [v|]; cbn [populate_combo].
  - destruct (find_data items v 0) as [i|] eqn:E.
    + apply find_data_some in E as [Hle Hfm]. rewrite Z.sub_0_r in Hfm.
      exists i. split; [|now left]. unfold setCurrentIndex.
      destruct Hfm as [[l Hn] _].
      assert (Hlt : (Z.to_nat i < List.length items)%nat).
      { apply nth_error_Some. rewrite Hn. discriminate. }
      replace ((0 <=? i) && (i <? Z.of_nat (List.length items)))%Z with true;
        [reflexivity|].
      symmetry. apply andb_true_iff. split; [apply Z.leb_le | apply Z.ltb_lt]; lia.
    + exists 0%Z. split; [exact H0|]. right. split; [|reflexivity].
      now apply find_data_none in E.
  - exists 0%Z. split; [exact H0 | reflexivity].
Qed.

(** The enum branch, one pass of the loop body: for every enum key of the
    schema, the combo box of [init_ui] holds the declared options in their
    order, and [populate_widget] selects the first item whose data equals
    the raw value, or the first item when nothing matches or the key is
    absent; [setting.cpu_level] from [9] selects item 0 (Low, data 0) and
    from [2] item 2 (High). *)
Theorem enum_decode :
  (forall ud msd settings key m,
     dict_get SETTINGS_SCHEMA key = Some m ->
     mtype m = TEnum ->
     let items := map option_item (options m) in
     dict_get init_ui key = Some (QComboBox items 0)
     /\ items <> []
     /\ forall i1, exists i,
          populate_widget ud msd settings key (QComboBox items i1)
            = Ok (QComboBox items i)
          /\ match dict_get settings key with
             | Some v => (0 <= i)%Z /\ first_match items v (Z.to_nat i)
                         \/ no_match items v /\ i = 0%Z
             | None => i = 0%Z
             end)
  /\ (forall ud msd i1,
        let cpu := py "setting.cpu_level" in
        let items := [(py "Low", py "0"); (py "Medium", py "1");
                      (py "High", py "2"); (py "Ultra", py "3")] in
        dict_get init_ui cpu = Some (QComboBox items 0)
        /\ populate_widget ud msd [(cpu, py "9")] cpu (QComboBox items i1)
             = Ok (QComboBox items 0)
        /\ nth_error items 0 = Some (py "Low", py "0")
        /\ populate_widget ud msd [(cpu, py "2")] cpu (QComboBox items i1)
             = Ok (QComboBox items 2)
        /\ nth_error items 2 = Some (py "High", py "2")).
Proof.
  split.
  - intros ud msd settings key m H Hty items.
    destruct (schema_fact_of key m H) as [Hw [Hopt _]]. cbn [fst snd] in Hw, Hopt.
    rewrite widget_of_other in Hw by (auto; congruence).
    unfold make_widget in Hw. rewrite Hty, make_combo_eq in Hw.
    specialize (Hopt Hty).
    assert (Hne : items <> []).
    { subst items. destruct (options m); [contradiction | discriminate]. }
    split; [|split; [exact Hne|]].
    + rewrite Hw. destruct (options m); [contradiction | reflexivity].
    + intro i1. unfold populate_widget. rewrite H, Hty.
      now apply populate_combo_spec.
  - intros ud msd i1. repeat split.
Qed.

Lemma enum_decode_witness :
  let items := map option_item
                 (options (m_enum "CPU Detail Level" low_to_ultra)) in
  exists i,
    populate_widget sample_decimal 4300
      [(py "setting.cpu_level", py "3")] (py "setting.cpu_level")
      (QComboBox items 1) = Ok (QComboBox items i)
    /\ ((0 <= i)%Z /\ first_match items (py "3") (Z.to_nat i)
        \/ no_match items (py "3") /\ i = 0%Z).
Proof.
  exact (proj2 (proj2
    (proj1 enum_decode sample_decimal 4300%nat
       [(py "setting.cpu_level", py "3")] (py "setting.cpu_level")
       (m_enum "CPU Detail Level" low_to_ultra) eq_refl eq_refl)) 1%Z).
Defined.

(** The boolean branches, one pass of each loop body: for every boolean
    key of the schema the widget is a check box; [populate_widget] checks
    it exactly when the stored raw value is the string [1] (not for any
    other value, nor for an absent key), and [collect_widget_value] stores
    [1] for a checked box and [0] for an unchecked one. *)
Theorem bool_coercion : forall ud msd settings key m,
  dict_get SETTINGS_SCHEMA key = Some m ->
  mtype m = TBool ->
  dict_get init_ui key = Some (QCheckBox [] false)
  /\ (forall t b1, exists b,
        populate_widget ud msd settings key (QCheckBox t b1) = Ok (QCheckBox t b)
        /\ (b = true <-> dict_get settings key = Some (py "1")))
  /\ (forall t (b : bool),
        let raw := if b then py "1" else py "0" in
        collect_widget_value settings key (QCheckBox t b)
          = Ok (dict_set settings key raw)
        /\ dict_get (dict_set settings key raw) key = Some raw).
Proof.
  intros ud msd settings key m H Hty.
  destruct (schema_fact_of key m H) as [Hw _]. cbn [fst snd] in Hw.
  rewrite widget_of_other in Hw by (auto; congruence).
  unfold make_widget in Hw. rewrite Hty in Hw.
  split; [exact Hw|]. split.
  - intros t b1. unfold populate_widget. rewrite H, Hty. cbn [setChecked].
    destruct (dict_get settings key) as [v|].
    + exists (str_eqb v (py "1")). split; [reflexivity|].
      rewrite str_eqb_eq. split; [now intros -> | now intros [= ->]].
    + exists false. split; [reflexivity|]. split; discriminate.
  - intros t b raw. unfold collect_widget_value. rewrite H, Hty.
    split; [reflexivity | apply dict_get_set_same].
Qed.

Lemma bool_coercion_witness :
  (exists b,
     populate_widget sample_decimal 4300
       [(py "setting.fullscreen", py "yes")] (py "setting.fullscreen")
       (QCheckBox [] true) = Ok (QCheckBox [] b)
     /\ (b = true <->
         dict_get [(py "setting.fullscreen", py "yes")] (py "setting.fullscreen")
           = Some (py "1")))
  /\ collect_widget_value [(py "setting.fullscreen", py "yes")]
       (py "setting.fullscreen") (QCheckBox [] true)
       = Ok [(py "setting.fullscreen", py "1")].
Proof.
  pose proof (bool_coercion sample_decimal 4300%nat
                [(py "setting.fullscreen", py "yes")] (py "setting.fullscreen")
                (m_bool "Fullscreen") eq_refl eq_refl) as [_ [Hd He]].
  split; [exact (Hd [] true) | exact (proj1 (He [] true))].
Defined.

(** ** Keys the editor does not manage *)







(** ** Keys without a schema entry *)

(** C9, as the code has it. For a key without a schema entry neither
    direction raises an error: [populate_widgets] leaves the widget as it
    is, [collect_widget_values] leaves the store as it is, and [init_ui]
    makes no widget for such a key. *)
Theorem unknown_key_is_skipped : forall ud msd settings key w,
  dict_get SETTINGS_SCHEMA key = None ->
  populate_widget ud msd settings key w = Ok w
  /\ collect_widget_value settings key w = Ok settings
  /\ dict_get init_ui key = None.
Proof.
  intros ud msd settings key w H.
  unfold populate_widget, collect_widget_value. rewrite H.
  repeat split. now apply init_ui_keys_in_schema.
Qed.

Lemma unknown_key_is_skipped_witness :
  dict_get SETTINGS_SCHEMA (py "my.key") = None
  /\ populate_widget sample_decimal 4300 [(py "my.key", py "abc")]
       (py "my.key") (QLabel (py "-")) = Ok (QLabel (py "-"))
  /\ collect_widget_value [(py "my.key", py "abc")] (py "my.key") (QLabel (py "-"))
       = Ok [(py "my.key", py "abc")]
  /\ dict_get init_ui (py "my.key") = None.
Proof.
  split; [reflexivity|].
  apply (unknown_key_is_skipped sample_decimal 4300%nat
           [(py "my.key", py "abc")] (py "my.key") (QLabel (py "-"))).
  reflexivity.
Defined.

(** C9 as the specification words it does not hold: decoding a key without
    a schema entry raises nothing.  The loop body returns the widget unchanged, and
    [populate_widgets] over the widgets of [init_ui], which has no widget
    for the key, ends without an exception. *)
Lemma decode_unknown_key_counterexample :
  dict_get SETTINGS_SCHEMA (py "my.key") = None
  /\ ~ (exists e,
          populate_widget sample_decimal 4300 [(py "my.key", py "abc")]
            (py "my.key") (QLabel (py "-")) = Raise e)
  /\ dict_get init_ui (py "my.key") = None
  /\ snd (populate_widgets sample_decimal 4300 [(py "my.key", py "abc")] init_ui)
       = None.
Proof.
  split; [reflexivity|]. split; [|split; reflexivity].
  intros [e H]. discriminate H.
Qed.

(** ** Integer keys *)

Lemma qBound_idem : forall lo hi v,
  qBound lo (qBound lo v hi) hi = qBound lo v hi.
Proof. intros. unfold qBound. lia. Qed.

Lemma qBound_range : forall lo hi v,
  (lo <= hi)%Z -> (lo <= qBound lo v hi <= hi)%Z.
Proof. intros. unfold qBound. lia. Qed.

Lemma c_int_ok : forall v, (INT_MIN <= v <= INT_MAX)%Z -> c_int v = Ok v.
Proof.
  intros v H. unfold c_int.
  replace ((INT_MIN <=? v) && (v <=? INT_MAX))%Z with true; [reflexivity|].
  symmetry. apply andb_true_iff. split; apply Z.leb_le; lia.
Qed.

(** The signals of the composite control stop: after the last call written
    out in [spin_setValue_connected] the slider has the value it had. *)
Lemma spin_signals_settle : forall spin slider s1,
  (minimum spin <= maximum spin)%Z ->
  (minimum slider <= maximum slider)%Z ->
  (minimum spin <= s1 <= maximum spin)%Z ->
  bound slider (bound spin (bound slider s1)) = bound slider s1.
Proof. intros spin slider s1. unfold bound, qBound. lia. Qed.

Lemma int_or_min_eq : forall ud msd m val,
  match (match val with
         | Some s => py_int ud msd s
         | None => Some (get_min m)
         end) with
  | Some v => v
  | None => get_min m
  end = int_or_min ud msd m val.
Proof. intros ud msd m [s|]; reflexivity. Qed.

(** The plain spin box branch bounds whatever it decodes. *)
Lemma populate_spin_clamps : forall ud msd m val b,
  minimum b = get_min m -> maximum b = get_max m ->
  (INT_MIN <= get_min m <= get_max m)%Z -> (get_max m <= INT_MAX)%Z ->
  populate_spin ud msd m val (QSpinBox b) =
    Ok (QSpinBox (with_value b
          (qBound (get_min m) (int_or_min ud msd m val) (get_max m)))).
Proof.
  intros ud msd m val b Hlo Hhi Hr1 Hr2. unfold populate_spin.
  assert (Hset : forall v,
            setValue (Z.max (get_min m) (Z.min (get_max m) v)) (QSpinBox b) =
              Ok (QSpinBox (with_value b (qBound (get_min m) v (get_max m))))).
  { intro v. unfold setValue. rewrite c_int_ok by lia. cbn [bind].
    unfold bound. rewrite Hlo, Hhi. fold (qBound (get_min m) v (get_max m)).
    now rewrite qBound_idem. }
  assert (Hmin : setValue (get_min m) (QSpinBox b) =
                   Ok (QSpinBox (with_value b (get_min m)))).
  { unfold setValue. rewrite c_int_ok by lia. cbn [bind].
    unfold bound, qBound. rewrite Hlo, Hhi. do 3 f_equal. lia. }
  unfold int_or_min. destruct val as [s|].
  - destruct (py_int ud msd s) as [v|].
    + now rewrite Hset.
    + rewrite Hmin. do 3 f_equal. unfold qBound. lia.
  - now rewrite Hset.
Qed.

(** The composite branch bounds the value too, as long as the value it
    decoded fits a C++ [int]. *)
Lemma populate_fps_in_range : forall ud msd m val cur1 cur2,
  (INT_MIN <= int_or_min ud msd m val <= INT_MAX)%Z ->
  populate_fps ud msd m val (Ranged 0 999 cur1) (Ranged 0 999 cur2) =
    let v := qBound 0 (int_or_min ud msd m val) 999 in
    Ok (FpsContainer (Ranged 0 999 v) (Ranged 0 999 v)).
Proof.
  intros ud msd m val cur1 cur2 Hr. unfold populate_fps.
  rewrite int_or_min_eq. rewrite c_int_ok by exact Hr. cbn [bind].
  unfold slider_setValue_connected, spin_setValue_connected, bound, with_value.
  cbn [minimum maximum value].
  set (v := int_or_min ud msd m val) in *.
  assert (Hv : (0 <= qBound 0 v 999 <= 999)%Z) by (apply qBound_range; lia).
  repeat match goal with
         | |- context [(?a =? ?b)%Z] => destruct (Z.eqb_spec a b)
         end;
    cbn [minimum maximum value bind] in *;
    repeat match goal with
           | |- context [(?a =? ?b)%Z] => destruct (Z.eqb_spec a b)
           end;
    cbn [minimum maximum value bind] in *;
    subst; try (do 2 f_equal; f_equal; unfold qBound in *; lia).
Qed.

(** Integer keys with a plain spin box: the decoded value is the parsed
    integer, or [min] when the raw value is absent or no integer, bounded to
    [min .. max]. *)
Lemma int_decode_plain : forall ud msd settings key m,
  dict_get SETTINGS_SCHEMA key = Some m ->
  mtype m = TInt ->
  key <> py "setting.max_fps" ->
  exists b,
    dict_get init_ui key = Some (QSpinBox b)
    /\ minimum b = get_min m /\ maximum b = get_max m
    /\ forall cur,
         populate_widget ud msd settings key (QSpinBox (with_value b cur)) =
           Ok (QSpinBox (with_value b
                 (qBound (get_min m)
                    (int_or_min ud msd m (dict_get settings key)) (get_max m)))).
Proof.
  intros ud msd settings key m H Hty Hkey.
  destruct (schema_fact_of key m H) as [Hw [_ Hr]]. cbn [fst snd] in Hw, Hr.
  destruct (Hr Hty) as [Hr1 Hr2]. unfold widget_of in Hw.
  apply str_eqb_neq in Hkey. rewrite Hkey in Hw.
  unfold make_widget in Hw. rewrite Hty in Hw.
  exists (setRange (get_min m) (get_max m) new_ranged).
  assert (Hmax : maximum (setRange (get_min m) (get_max m) new_ranged) = get_max m).
  { cbn. lia. }
  repeat split; [exact Hw | exact Hmax |].
  intro cur. unfold populate_widget. rewrite H, Hty. cbn iota.
  rewrite (populate_spin_clamps ud msd m (dict_get settings key)
             (with_value (setRange (get_min m) (get_max m) new_ranged) cur));
    auto.
Qed.

(** [setting.max_fps], the composite control: the same, as long as the
    decoded value fits a C++ [int]. *)
Lemma int_decode_fps : forall ud msd settings cur1 cur2,
  let key := py "setting.max_fps" in
  let v := int_or_min ud msd (m_int "FPS Limit" 0 999 None) (dict_get settings key) in
  (INT_MIN <= v <= INT_MAX)%Z ->
  populate_widget ud msd settings key
    (FpsContainer (Ranged 0 999 cur1) (Ranged 0 999 cur2)) =
    Ok (FpsContainer (Ranged 0 999 (qBound 0 v 999)) (Ranged 0 999 (qBound 0 v 999))).
Proof.
  intros ud msd settings cur1 cur2 key v Hv. unfold populate_widget.
  change (dict_get SETTINGS_SCHEMA key) with (Some (m_int "FPS Limit" 0 999 None)).
  cbn iota. change (mtype (m_int "FPS Limit" 0 999 None)) with TInt. cbn iota.
  now rewrite populate_fps_in_range.
Qed.

(** The examples of the specification for [setting.max_fps]. *)
Lemma max_fps_examples : forall ud msd,
  let key := py "setting.max_fps" in
  let at_ v := Ok (FpsContainer (Ranged 0 999 v) (Ranged 0 999 v)) in
  populate_widget ud msd [(key, py "5000")] key fps_container = at_ 999%Z
  /\ populate_widget ud msd [(key, py "-10")] key fps_container = at_ 0%Z
  /\ populate_widget ud msd [(key, py "fast")] key fps_container = at_ 0%Z
  /\ populate_widget ud msd [] key fps_container = at_ 0%Z.
Proof. intros ud msd. repeat split. Qed.

(** C3, where the code departs from it. [setting.max_fps] is shown by the
    composite control, and its branch hands the parsed integer to the spin
    box as it is: a raw value beyond the range of a C++ [int] is not
    bounded to 999, the call raises [OverflowError] and the loop of
    [populate_widgets] ends at this first widget.  The plain spin box branch
    bounds the same raw value to its maximum. *)
Theorem fps_limit_decode_overflow : forall ud msd,
  dict_get SETTINGS_SCHEMA (py "setting.max_fps")
    = Some (m_int "FPS Limit" 0 999 None)
  /\ dict_get init_ui (py "setting.max_fps") = Some fps_container
  /\ py_int ud msd (py "99999999999999999999") = Some 99999999999999999999%Z
  /\ populate_widget ud msd huge_fps (py "setting.max_fps") fps_container
       = Raise OverflowError
  /\ populate_widgets ud msd huge_fps init_ui = (init_ui, Some OverflowError)
  /\ populate_widget ud msd
       [(py "setting.defaultres", py "99999999999999999999")]
       (py "setting.defaultres") (QSpinBox (Ranged 320 7680 320))
       = Ok (QSpinBox (Ranged 320 7680 7680)).
Proof. intros ud msd. repeat split. Qed.

Lemma parse_config_total_witness :
  ~ In dq (py "{ video }") /\ parse_config (py "{ video }") = [].
Proof.
  assert (H : ~ In dq (py "{ video }")).
  { intro H. repeat (destruct H as [H|H]; [discriminate H|]). exact H. }
  split; [exact H|].
  exact (proj2 (proj2 (proj2 (proj1 parse_config_total (py "{ video }")))) H).
Defined.

Lemma parse_config_entries_clean_witness :
  In (py "a", py "3") (parse_config duplicate_text)
  /\ (py "a" <> [] /\ ~ In dq (py "a") /\ ~ In nl (py "a"))
  /\ (py "3" <> [] /\ ~ In dq (py "3") /\ ~ In nl (py "3")).
Proof.
  assert (Hin : In (py "a", py "3") (parse_config duplicate_text)) by (now left).
  split; [exact Hin|].
  pose proof (proj1 (Forall_forall _ _)
                (proj1 parse_config_entries_clean duplicate_text) _ Hin)
    as [[K1 [K2 [K3 _]]] [V1 [V2 [V3 _]]]].
  repeat split; assumption.
Defined.

(** ** [int] and [str] on integers *)

Lemma is_digit_range : forall c, is_digit c = true <-> 48 <= c <= 57.
Proof.
  intro c. unfold is_digit. rewrite andb_true_iff, !N.leb_le. tauto.
Qed.

Section IntStr.
Variable ud : char -> option N.
Variable msd : nat.

Lemma to_ascii_id : forall s,
  Forall (fun c => c < 127) s -> map (to_ascii ud) s = s.
Proof.
  induction 1 as [|c s Hc _ IH]; [reflexivity|]. cbn [map]. rewrite IH.
  unfold to_ascii. apply N.ltb_lt in Hc. now rewrite Hc.
Qed.

Lemma scan_digits_all : forall s prev acc n,
  Forall (fun c => is_digit c = true) s ->
  prev <> underscore ->
  scan_digits prev acc n s = Some (digits_value acc s, (n + List.length s)%nat, []).
Proof.
  induction s as [|c s IH]; intros prev acc n Hs Hp; cbn [scan_digits].
  - apply N.eqb_neq in Hp. rewrite Hp. cbn. now rewrite Nat.add_0_r.
  - inversion Hs as [|? ? Hc Hs']; subst. apply is_digit_range in Hc.
    assert (E : (c =? underscore) = false) by (apply N.eqb_neq; unfold underscore; lia).
    rewrite E. unfold digit_value.
    replace ((48 <=? c) && (c <=? 57)) with true
      by (symmetry; apply andb_true_iff; split; apply N.leb_le; lia).
    rewrite IH by (auto; unfold underscore; lia).
    cbn [List.length digits_value fold_left]. now rewrite Nat.add_succ_r.
Qed.

(** [int] on a plain decimal literal: digits, or a minus sign and
    digits. *)
Lemma py_int_digits : forall s,
  s <> [] -> Forall (fun c => is_digit c = true) s ->
  (List.length s <= 640)%nat ->
  py_int ud msd s = Some (digits_value 0 s)
  /\ py_int ud msd (45 :: s) = Some (- digits_value 0 s)%Z.
Proof.
  intros s Hne Hs Hlen.
  assert (Hasc : Forall (fun c => c < 127) s).
  { eapply Forall_impl; [|exact Hs]. intros c Hc. apply is_digit_range in Hc. lia. }
  assert (Hscan := scan_digits_all s 0 0%Z 0%nat Hs ltac:(discriminate)).
  destruct s as [|c s]; [contradiction|].
  assert (Hc : 48 <= c <= 57) by (inversion Hs; now apply is_digit_range).
  assert (Hsp : c_isspace c = false).
  { unfold c_isspace. apply orb_false_iff. split;
      [apply andb_false_iff; right; apply N.leb_gt; lia | apply N.eqb_neq; lia]. }
  assert (Hlim : ((640 <? List.length (c :: s))%nat && (0 <? msd)%nat
                  && (msd <? List.length (c :: s))%nat) = false).
  { replace (640 <? List.length (c :: s))%nat with false; [reflexivity|].
    symmetry. apply Nat.ltb_ge. exact Hlen. }
  assert (Hbody :
    match c :: s with
    | 95 :: _ => None
    | _ =>
        match scan_digits 0 0%Z 0%nat (c :: s) with
        | None => None
        | Some (n, digits, rest) =>
            if (640 <? digits)%nat && (0 <? msd)%nat && (msd <? digits)%nat
            then None
            else if (digits =? 0)%nat then None
            else match snd (span c_isspace rest) with
                 | [] => Some n
                 | _ :: _ => None
                 end
        end
    end = Some (digits_value 0 (c :: s))).
  { rewrite Hscan. cbn [Nat.add]. rewrite Hlim. cbn [List.length Nat.eqb span snd].
    assert (D : c = 48 \/ c = 49 \/ c = 50 \/ c = 51 \/ c = 52 \/ c = 53 \/
                c = 54 \/ c = 55 \/ c = 56 \/ c = 57) by lia.
    repeat (destruct D as [->|D]; [reflexivity|]). subst c. reflexivity. }
  pose proof (to_ascii_id (c :: s) Hasc) as Hmap. cbn [map] in Hmap.
  split.
  - unfold py_int. cbn [map]. rewrite Hmap.
    cbn [span]. rewrite Hsp. cbn [snd].
    assert (D : c = 48 \/ c = 49 \/ c = 50 \/ c = 51 \/ c = 52 \/ c = 53 \/
                c = 54 \/ c = 55 \/ c = 56 \/ c = 57) by lia.
    repeat (destruct D as [->|D]; [exact Hbody|]). subst c. exact Hbody.
  - unfold py_int. cbn [map]. rewrite Hmap.
    change (to_ascii ud 45) with 45. cbn [span c_isspace].
    change (snd (span c_isspace (45 :: c :: s))) with (45 :: c :: s).
    cbv iota beta.
    assert (Hneg :
      match c :: s with
      | 95 :: _ => None
      | _ =>
          match scan_digits 0 0%Z 0%nat (c :: s) with
          | None => None
          | Some (n, digits, rest) =>
              if (640 <? digits)%nat && (0 <? msd)%nat && (msd <? digits)%nat
              then None
              else if (digits =? 0)%nat then None
              else match snd (span c_isspace rest) with
                   | [] => Some (- n)%Z
                   | _ :: _ => None
                   end
          end
      end = Some (- digits_value 0 (c :: s))%Z).
    { rewrite Hscan. cbn [Nat.add]. rewrite Hlim. cbn [List.length Nat.eqb span snd].
      assert (D : c = 48 \/ c = 49 \/ c = 50 \/ c = 51 \/ c = 52 \/ c = 53 \/
                  c = 54 \/ c = 55 \/ c = 56 \/ c = 57) by lia.
      repeat (destruct D as [->|D]; [reflexivity|]). subst c. reflexivity. }
    exact Hneg.
Qed.

End IntStr.

Lemma uint_digits : forall d,
  Forall (fun c => is_digit c = true) (py (NilEmpty.string_of_uint d))
  /\ List.length (py (NilEmpty.string_of_uint d)) = Decimal.nb_digits d.
Proof.
  induction d as [|d [IH1 IH2]|d [IH1 IH2]|d [IH1 IH2]|d [IH1 IH2]|d [IH1 IH2]
                  |d [IH1 IH2]|d [IH1 IH2]|d [IH1 IH2]|d [IH1 IH2]|d [IH1 IH2]];
    (split; [try constructor; try reflexivity; try exact IH1
            | cbn; try rewrite <- IH2; reflexivity]).
Qed.

Lemma digits_value_cons : forall acc c s,
  digits_value acc (c :: s) = digits_value (10 * acc + Z.of_N (c - 48))%Z s.
Proof. reflexivity. Qed.

Ltac digit_step IH :=
  match goal with
  | |- digits_value _ (py (String ?c ?r)) = _ =>
      change (py (String c r)) with (N_of_ascii c :: py r);
      rewrite digits_value_cons, <- IH; f_equal;
      simpl (Z.of_N _); lia
  end.

Lemma uint_value_acc : forall d a,
  digits_value (Z.pos a) (py (NilEmpty.string_of_uint d))
    = Z.pos (Pos.of_uint_acc d a).
Proof.
  induction d; intro a; cbn [NilEmpty.string_of_uint Pos.of_uint_acc];
    [reflexivity | digit_step IHd ..].
Qed.

Lemma uint_value : forall d,
  digits_value 0 (py (NilEmpty.string_of_uint d)) = Z.of_N (Pos.of_uint d).
Proof.
  induction d; cbn [NilEmpty.string_of_uint Pos.of_uint];
    [reflexivity | exact IHd | ..];
    match goal with
    | |- digits_value _ (py (String ?c ?r)) = _ =>
        change (py (String c r)) with (N_of_ascii c :: py r);
        rewrite digits_value_cons
    end;
    cbn [Z.of_N]; rewrite <- uint_value_acc; reflexivity.
Qed.

Lemma double_digits : forall d,
  (Decimal.nb_digits (Decimal.Little.double d) <= S (Decimal.nb_digits d))%nat
  /\ (Decimal.nb_digits (Decimal.Little.succ_double d) <= S (Decimal.nb_digits d))%nat.
Proof.
  induction d as [|d [IH1 IH2]|d [IH1 IH2]|d [IH1 IH2]|d [IH1 IH2]|d [IH1 IH2]
                  |d [IH1 IH2]|d [IH1 IH2]|d [IH1 IH2]|d [IH1 IH2]|d [IH1 IH2]];
    cbn; lia.
Qed.

Lemma to_uint_digits : forall p,
  (Decimal.nb_digits (Pos.to_uint p) <= Pos.size_nat p)%nat.
Proof.
  intro p. unfold Pos.to_uint. rewrite DecimalFacts.nb_digits_rev.
  induction p as [p IH|p IH|]; cbn [Pos.to_little_uint Pos.size_nat].
  - pose proof (proj2 (double_digits (Pos.to_little_uint p))). lia.
  - pose proof (proj1 (double_digits (Pos.to_little_uint p))). lia.
  - cbn. lia.
Qed.

Lemma str_of_int_pos : forall p,
  str_of_int (Z.pos p) = py (NilEmpty.string_of_uint (Pos.to_uint p))
  /\ str_of_int (Z.neg p) = 45 :: py (NilEmpty.string_of_uint (Pos.to_uint p)).
Proof.
  intro p. unfold str_of_int. cbn [Z.to_int NilZero.string_of_int].
  pose proof (DecimalPos.Unsigned.to_uint_nonnil p) as Hn.
  unfold NilZero.string_of_uint. destruct (Pos.to_uint p); [contradiction|..];
    split; reflexivity.
Qed.

(** What [str] writes for an integer: digits, after a minus sign for a
    negative one. *)
Lemma str_of_int_shape : forall n,
  exists ds,
    ds <> [] /\ Forall (fun c => is_digit c = true) ds
    /\ digits_value 0 ds = Z.abs n
    /\ (List.length ds <= Pos.size_nat (Z.to_pos (Z.abs n)))%nat
    /\ str_of_int n = if (n <? 0)%Z then 45 :: ds else ds.
Proof.
  intros [|p|p].
  - exists (py "0"). repeat split; try discriminate; try (cbn; lia).
    repeat constructor.
  - destruct (str_of_int_pos p) as [E _]. destruct (uint_digits (Pos.to_uint p)) as [F L].
    exists (py (NilEmpty.string_of_uint (Pos.to_uint p))).
    split; [|split; [exact F|split; [|split; [|exact E]]]].
    + intro H. rewrite H in L. cbn in L. symmetry in L.
      apply DecimalFacts.nb_digits_0 in L.
      now apply (DecimalPos.Unsigned.to_uint_nonnil p).
    + rewrite uint_value, DecimalPos.Unsigned.of_to. reflexivity.
    + rewrite L. apply to_uint_digits.
  - destruct (str_of_int_pos p) as [_ E]. destruct (uint_digits (Pos.to_uint p)) as [F L].
    exists (py (NilEmpty.string_of_uint (Pos.to_uint p))).
    split; [|split; [exact F|split; [|split; [|exact E]]]].
    + intro H. rewrite H in L. cbn in L. symmetry in L.
      apply DecimalFacts.nb_digits_0 in L.
      now apply (DecimalPos.Unsigned.to_uint_nonnil p).
    + rewrite uint_value, DecimalPos.Unsigned.of_to. reflexivity.
    + rewrite L. apply to_uint_digits.
Qed.

Lemma size_nat_pow : forall p n,
  (Z.pos p < 2 ^ Z.of_nat n)%Z -> (Pos.size_nat p <= n)%nat.
Proof.
  induction p as [p IH|p IH|]; intros [|n] H; cbn [Pos.size_nat];
    try (cbn in H; lia);
    rewrite Nat2Z.inj_succ, Z.pow_succ_r in H by lia;
    apply le_n_S, IH; lia.
Qed.

(** The decimal form of a C++ [int] is short. *)
Lemma str_of_int_short : forall n,
  (INT_MIN <= n <= INT_MAX)%Z -> (List.length (str_of_int n) <= 33)%nat.
Proof.
  intros n Hn. destruct (str_of_int_shape n) as [ds [_ [_ [_ [Hl E]]]]].
  assert (Hp : (Pos.size_nat (Z.to_pos (Z.abs n)) <= 32)%nat).
  { clear - Hn. apply size_nat_pow.
    change (2 ^ Z.of_nat 32)%Z with 4294967296%Z.
    unfold INT_MIN, INT_MAX in Hn. lia. }
  rewrite E. destruct (n <? 0)%Z; cbn [List.length]; lia.
Qed.

Section IntStrRoundTrip.
Variable ud : char -> option N.
Variable msd : nat.

Lemma int_str_roundtrip : forall n,
  (List.length (str_of_int n) <= 640)%nat ->
  py_int ud msd (str_of_int n) = Some n.
Proof.
  intros n Hn. destruct (str_of_int_shape n) as [ds [Hne [Hd [Hv [_ E]]]]].
  rewrite E in Hn |- *. destruct (n <? 0)%Z eqn:En.
  - cbn [List.length] in Hn.
    destruct (py_int_digits ud msd ds Hne Hd ltac:(lia)) as [_ P2].
    rewrite P2, Hv. apply Z.ltb_lt in En. f_equal. lia.
  - destruct (py_int_digits ud msd ds Hne Hd Hn) as [P1 _].
    rewrite P1, Hv. apply Z.ltb_ge in En. f_equal. lia.
Qed.


(** X1. [int(str(n)) = n] for every integer [n] whose decimal form has at
    most 640 characters, whatever the digit limit of the interpreter is;
    every C++ [int] is such an integer. *)
Theorem py_int_str_of_int : forall n,
  (List.length (str_of_int n) <= 640)%nat ->
  py_int ud msd (str_of_int n) = Some n.
Proof. intros n Hn. now apply int_str_roundtrip. Qed.

End IntStrRoundTrip.

Lemma py_int_str_of_int_witness :
  (List.length (str_of_int (-2048)) <= 640)%nat
  /\ py_int sample_decimal 4300 (str_of_int (-2048)) = Some (-2048)%Z.
Proof.
  assert (H : (List.length (str_of_int (-2048)) <= 640)%nat) by (cbn; lia).
  split; [exact H | exact (py_int_str_of_int sample_decimal 4300%nat (-2048)%Z H)].
Defined.

(** ** The widgets of a session *)

Lemma dict_get_of_In : forall {V} (d : dict V) k v,
  NoDup (keys d) -> In (k, v) d -> dict_get d k = Some v.
Proof.
  induction d as [|[k0 v0] d IH]; intros k v Hnd Hin; [destruct Hin|].
  cbn [dict_get]. inversion Hnd as [|? ? Hk0 Hnd']; subst.
  destruct Hin as [[= -> ->]|Hin]; [now rewrite str_eqb_refl|].
  destruct (str_eqb k k0) eqn:E; [|now apply IH].
  apply str_eqb_eq in E. subst k0. exfalso. apply Hk0.
  unfold keys. apply in_map_iff. now exists (k, v).
Qed.

Lemma init_ui_NoDup : NoDup (keys init_ui).
Proof.
  assert (G : forall f l d,
            (forall d e, NoDup (keys d) -> NoDup (keys (f d e))) ->
            NoDup (keys d) -> NoDup (keys (@fold_left (dict widget) (str * meta) f l d))).
  { intros f l. induction l as [|e l IH]; intros d Hf Hd; [exact Hd|].
    cbn [fold_left]. apply IH; auto. }
  unfold init_ui. apply G; [| apply G; [| constructor]].
  - intros d e Hd. unfold init_right. now apply dict_set_NoDup.
  - intros d e Hd. unfold init_left.
    destruct (mtype (snd e)); try now apply dict_set_NoDup.
    destruct (str_eqb (fst e) (py "setting.coop_fullscreen"));
      repeat apply dict_set_NoDup; exact Hd.
Qed.

Lemma init_ui_entries : forall k w0,
  In (k, w0) init_ui ->
  exists m, dict_get SETTINGS_SCHEMA k = Some m /\ w0 = widget_of k m.
Proof.
  intros k w0 Hin.
  pose proof (dict_get_of_In init_ui k w0 init_ui_NoDup Hin) as Hg.
  destruct (dict_get SETTINGS_SCHEMA k) as [m|] eqn:Hs.
  - exists m. split; [reflexivity|].
    destruct (schema_fact_of k m Hs) as [Hw _]. cbn [fst snd] in Hw. congruence.
  - apply init_ui_keys_in_schema in Hs. congruence.
Qed.

(** The kinds of widget a schema entry can have, with what [shape_ok] then
    says of a widget in its place. *)
Lemma shape_cases : forall k w0 w,
  In (k, w0) init_ui -> shape_ok w0 w ->
  exists m, dict_get SETTINGS_SCHEMA k = Some m /\
    match mtype m with
    | TMeta => exists t, w = QLabel t
    | TBool => exists b, w = QCheckBox [] b
    | TEnum => exists i, w = QComboBox (map option_item (options m)) i
                         /\ (0 <= i < Z.of_nat (List.length (options m)))%Z
    | TInt =>
        if str_eqb k (py "setting.max_fps")
        then exists v, w = FpsContainer (Ranged 0 999 v) (Ranged 0 999 v)
                       /\ (0 <= v <= 999)%Z
        else exists v, w = QSpinBox (Ranged (get_min m) (get_max m) v)
                       /\ (get_min m <= v <= get_max m)%Z
                       /\ (INT_MIN <= get_min m)%Z /\ (get_max m <= INT_MAX)%Z
    end.
Proof.
  intros k w0 w Hin Hs. destruct (init_ui_entries k w0 Hin) as [m [Hm ->]].
  exists m. split; [exact Hm|].
  destruct (schema_fact_of k m Hm) as [_ [Hopt Hint]]. cbn [fst snd] in Hopt, Hint.
  destruct (mtype m) eqn:Hty.
  - destruct (Hint eq_refl) as [[R1 R2] R3]. unfold widget_of in Hs.
    destruct (str_eqb k (py "setting.max_fps")).
    + destruct w as [| | | |[a b v] [a' b' v']]; cbn in Hs; try contradiction.
      destruct Hs as [-> [-> [-> [-> [Hv ->]]]]]. exists v. auto.
    + unfold make_widget in Hs. rewrite Hty in Hs.
      destruct w as [| |[a b v]| |]; cbn in Hs; try contradiction.
      destruct Hs as [-> [-> Hv]]. exists v.
      replace (Z.max (get_min m) (get_max m)) with (get_max m) in * by lia.
      auto.
  - rewrite widget_of_other in Hs by (auto; congruence).
    unfold make_widget in Hs. rewrite Hty in Hs.
    destruct w; cbn in Hs; try contradiction. subst. eauto.
  - rewrite widget_of_other in Hs by (auto; congruence).
    unfold make_widget in Hs. rewrite Hty, make_combo_eq in Hs.
    destruct w as [| | |items i|]; cbn in Hs; try contradiction.
    destruct Hs as [-> Hi]. rewrite length_map in Hi. eauto.
  - rewrite widget_of_other in Hs by (auto; congruence).
    unfold make_widget in Hs. rewrite Hty in Hs.
    destruct w; cbn in Hs; try contradiction. eauto.
Qed.

Lemma clean_b_clean : forall s, clean_b s = true -> clean s.
Proof.
  intros s H. destruct s as [|c s]; [discriminate|]. unfold clean_b in H.
  rewrite forallb_forall in H. split; [discriminate|]. split.
  - intro Hin. apply H in Hin. now rewrite N.eqb_refl in Hin.
  - intros x Hin. apply H in Hin. apply andb_true_iff in Hin as [_ Hin].
    now apply negb_true_iff.
Qed.

Lemma clean_str_of_int : forall n, clean (str_of_int n).
Proof.
  intro n. destruct (str_of_int_shape n) as [ds [Hne [Hd [_ [_ E]]]]].
  apply clean_b_clean. rewrite E.
  assert (F : forallb (fun c => negb (c =? dq) && negb (is_linebreak c)) ds = true).
  { apply forallb_forall. intros c Hc.
    rewrite Forall_forall in Hd. apply Hd, is_digit_range in Hc.
    apply andb_true_iff. split; apply negb_true_iff.
    - apply N.eqb_neq. unfold dq. lia.
    - unfold is_linebreak. repeat (apply orb_false_iff; split);
        try (apply N.eqb_neq; lia);
        apply andb_false_iff; right; apply N.leb_gt; lia. }
  destruct (n <? 0)%Z.
  - unfold clean_b. cbn [forallb]. now rewrite F.
  - destruct ds; [contradiction | exact F].
Qed.

(** The options of the enum keys: every item has its own data, and the
    data can be written to the file. *)
Lemma schema_enum_facts : forall k m,
  dict_get SETTINGS_SCHEMA k = Some m -> mtype m = TEnum ->
  let items := map option_item (options m) in
  forall i l d, nth_error items i = Some (l, d) ->
    find_data items d 0 = Some (Z.of_nat i) /\ clean_b d = true.
Proof.
  assert (F : Forall (fun e : str * meta =>
                mtype (snd e) = TEnum ->
                forall i l d,
                  nth_error (map option_item (options (snd e))) i = Some (l, d) ->
                  find_data (map option_item (options (snd e))) d 0 = Some (Z.of_nat i)
                  /\ clean_b d = true) SETTINGS_SCHEMA).
  { unfold SETTINGS_SCHEMA. cbn [map].
    repeat (apply Forall_cons;
            [ intro Hty; cbn in Hty; try discriminate Hty;
              intros i l d Hn;
              do 6 (destruct i as [|i];
                    [vm_compute in Hn;
                     first [discriminate Hn
                           | injection Hn as <- <-; split; reflexivity]|]);
              vm_compute in Hn; discriminate Hn
            | ]).
    apply Forall_nil. }
  intros k m H Hty items i l d Hn. apply dict_get_In in H.
  exact (proj1 (Forall_forall _ _) F (k, m) H Hty i l d Hn).
Qed.

Lemma init_ui_keys_clean : forall k w0, In (k, w0) init_ui -> clean k.
Proof.
  intros k w0 H. apply clean_b_clean.
  assert (F : forallb (fun e : str * widget => clean_b (fst e)) init_ui = true)
    by (vm_compute; reflexivity).
  exact (proj1 (forallb_forall _ _) F (k, w0) H).
Qed.

(** ** What [collect_widget_values] does with the widgets of the editor *)

Lemma collect_value_ok : forall s k w0 w,
  In (k, w0) init_ui -> shape_ok w0 w ->
  collect_widget_value s k w = Ok (write_one s (k, w))
  /\ (forall r, raw_of w = Some r -> clean r)
  /\ (editable k -> raw_of w <> None).
Proof.
  intros s k w0 w Hin Hs.
  destruct (shape_cases k w0 w Hin Hs) as [m [Hm Hc]].
  unfold collect_widget_value, write_one, editable. rewrite Hm. cbn [fst snd].
  destruct (mtype m) eqn:Hty.
  - destruct (str_eqb k (py "setting.max_fps"));
      destruct Hc as [v [-> Hv]];
      (split; [reflexivity | split; [|discriminate]]);
      intros r [= <-]; apply clean_str_of_int.
  - destruct Hc as [b ->].
    split; [reflexivity | split; [|discriminate]].
    intros r [= <-]. apply clean_b_clean. now destruct b.
  - destruct Hc as [i [-> Hi]].
    split; [reflexivity | split; [|discriminate]].
    intros r [= <-]. destruct (i <? 0)%Z eqn:E; [apply Z.ltb_lt in E; lia|].
    destruct (nth_error (map option_item (options m)) (Z.to_nat i))
      as [[l d]|] eqn:En.
    + apply clean_b_clean. exact (proj2 (schema_enum_facts k m Hm Hty _ _ _ En)).
    + apply nth_error_None in En. rewrite length_map in En. lia.
  - destruct Hc as [t ->].
    split; [reflexivity | split; [discriminate|]].
    intro H. contradiction.
Qed.

Lemma widgets_ok_entries : forall ws,
  widgets_ok ws ->
  forall k w, In (k, w) ws -> exists w0, In (k, w0) init_ui /\ shape_ok w0 w.
Proof.
  unfold widgets_ok. intros ws H. induction H as [|[k0 w0] [k1 w1] l0 l [Hk Hs] _ IH];
    intros k w Hin; [destruct Hin|].
  cbn [fst snd] in Hk, Hs. subst k1. destruct Hin as [[= <- <-]|Hin].
  - exists w0. split; [now left | exact Hs].
  - destruct (IH k w Hin) as [w0' [H1 H2]]. exists w0'. split; [now right | exact H2].
Qed.

Lemma widgets_ok_keys : forall ws, widgets_ok ws -> keys ws = keys init_ui.
Proof.
  unfold widgets_ok. intros ws H.
  induction H as [|[k0 w0] [k1 w1] l0 l [Hk _] _ IH]; [reflexivity|].
  cbn [fst] in Hk. cbn [keys map fst]. f_equal; [exact Hk | exact IH].
Qed.

Lemma widgets_ok_init : widgets_ok init_ui.
Proof.
  unfold widgets_ok.
  assert (G : forall l : dict widget,
            Forall (fun e => shape_ok (snd e) (snd e)) l ->
            Forall2 (fun e0 e => fst e = fst e0 /\ shape_ok (snd e0) (snd e)) l l).
  { induction 1; constructor; auto. }
  apply G. vm_compute. repeat (constructor; [repeat split; discriminate|]).
  constructor.
Qed.

Section WriteBack.
Variable l : dict widget.
Hypothesis l_ok :
  forall k w, In (k, w) l -> exists w0, In (k, w0) init_ui /\ shape_ok w0 w.

Lemma collect_values_write_back : forall s,
  collect_widget_values l s = (write_back l s, None).
Proof.
  revert l_ok. induction l as [|[k w] l' IH]; intros Hok s; [reflexivity|].
  cbn [collect_widget_values write_back fold_left].
  destruct (Hok k w (or_introl eq_refl)) as [w0 [Hin Hs]].
  destruct (collect_value_ok s k w0 w Hin Hs) as [-> _].
  apply IH. intros k' w' H. apply Hok. now right.
Qed.

Lemma write_back_store_ok : forall s, store_ok s -> store_ok (write_back l s).
Proof.
  revert l_ok. induction l as [|[k w] l' IH]; intros Hok s Hs; [exact Hs|].
  cbn [write_back fold_left]. apply IH; [intros k' w' H; apply Hok; now right|].
  destruct (Hok k w (or_introl eq_refl)) as [w0 [Hin Hsh]].
  destruct (collect_value_ok s k w0 w Hin Hsh) as [_ [Hc _]].
  unfold write_one. cbn [fst snd]. destruct (raw_of w) as [r|]; [|exact Hs].
  destruct Hs as [Hnd Hcl]. split; [now apply dict_set_NoDup|].
  apply Forall_forall. intros [k' v'] H. cbn [fst snd].
  apply dict_set_In in H as [H|[-> ->]].
  - exact (proj1 (Forall_forall _ _) Hcl (k', v') H).
  - split; [eapply init_ui_keys_clean; eauto | now apply Hc].
Qed.

End WriteBack.

Lemma write_back_frame : forall l s k,
  ~ In k (keys l) -> dict_get (write_back l s) k = dict_get s k.
Proof.
  induction l as [|[k0 w] l IH]; intros s k Hn; [reflexivity|].
  cbn [write_back fold_left]. cbn [keys map fst] in Hn.
  fold (write_back l (write_one s (k0, w))).
  rewrite IH by (intro H; apply Hn; now right).
  unfold write_one. cbn [fst snd]. destruct (raw_of w); [|reflexivity].
  apply dict_get_set_other. intro E. apply Hn. now left.
Qed.

Lemma write_back_get : forall l s k w r,
  NoDup (keys l) -> In (k, w) l -> raw_of w = Some r ->
  dict_get (write_back l s) k = Some r.
Proof.
  induction l as [|[k0 w0] l IH]; intros s k w r Hnd Hin Hr; [destruct Hin|].
  cbn [write_back fold_left]. fold (write_back l (write_one s (k0, w0))).
  inversion Hnd as [|? ? Hk0 Hnd']; subst.
  destruct Hin as [[= -> ->]|Hin].
  - rewrite write_back_frame by exact Hk0.
    unfold write_one. cbn [fst snd]. rewrite Hr. apply dict_get_set_same.
  - eapply IH; eauto.
Qed.

Lemma dict_set_same : forall {V} (d : dict V) k v,
  dict_get d k = Some v -> dict_set d k v = d.
Proof.
  induction d as [|[k0 v0] d IH]; intros k v H; [discriminate|].
  cbn [dict_get dict_set] in *. destruct (str_eqb k k0).
  - now injection H as ->.
  - f_equal. now apply IH.
Qed.

Lemma write_back_idem : forall l s,
  NoDup (keys l) -> write_back l (write_back l s) = write_back l s.
Proof.
  intros l s Hnd.
  assert (G : forall l', (forall e, In e l' -> In e l) ->
                         write_back l' (write_back l s) = write_back l s).
  { induction l' as [|[k w] l' IH]; intros Hsub; [reflexivity|].
    cbn [write_back fold_left]. fold (write_back l' (write_one (write_back l s) (k, w))).
    replace (write_one (write_back l s) (k, w)) with (write_back l s).
    - apply IH. intros e H. apply Hsub. now right.
    - unfold write_one. cbn [fst snd]. destruct (raw_of w) as [r|] eqn:Hr; [|reflexivity].
      symmetry. apply dict_set_same. eapply write_back_get; eauto.
      apply Hsub. now left. }
  apply G. auto.
Qed.

Lemma parse_config_store_ok : forall t, store_ok (parse_config t).
Proof.
  intro t. split; [apply store_of_NoDup|].
  apply Forall_forall. intros [k v] H. cbn [fst snd].
  apply parse_config_In in H. now apply (all_matches_clean t).
Qed.

(** X2. A store comes back from [serialize_config] and [parse_config] as it
    was exactly when its keys are distinct and every key and value is
    non-empty and free of quotes and line boundaries. *)
Theorem roundtrip_iff_store_ok : forall s,
  parse_config (serialize_config s) = s <-> store_ok s.
Proof.
  intro s. split.
  - intro E. rewrite <- E. apply parse_config_store_ok.
  - intros [Hnd Hcl]. now apply roundtrip_store.
Qed.

Lemma roundtrip_iff_store_ok_witness :
  parse_config (serialize_config [(py "k", [dq])]) <> [(py "k", [dq])]
  /\ parse_config (serialize_config [(py "k", py "v w")]) = [(py "k", py "v w")].
Proof.
  split.
  - intro E. apply (proj1 (roundtrip_iff_store_ok _)) in E.
    destruct E as [_ F]. inversion F as [|? ? [_ [_ [H _]]] _]; subst.
    apply H. now left.
  - apply (proj2 (roundtrip_iff_store_ok _)). split.
    + repeat constructor. simpl. tauto.
    + repeat constructor; try discriminate; cbn;
        intuition (try discriminate; subst; reflexivity).
Defined.

Lemma save_config_written : forall fname ws s,
  fname <> [] -> widgets_ok ws -> store_ok s ->
  let s' := write_back ws s in
  save_config fname ws s = (s', None, Some (serialize_config s'))
  /\ parse_config (serialize_config s') = s'.
Proof.
  intros fname ws s Hf Hws Hs s'.
  pose proof (widgets_ok_entries ws Hws) as Hok.
  assert (Hnd : NoDup (keys ws))
    by (rewrite (widgets_ok_keys ws Hws); apply init_ui_NoDup).
  split.
  - unfold save_config. destruct fname as [|c fname]; [contradiction|].
    destruct s as [|e s].
    + rewrite (collect_values_write_back ws Hok).
      rewrite (collect_values_write_back ws Hok).
      subst s'. now rewrite write_back_idem.
    + now rewrite (collect_values_write_back ws Hok).
  - destruct (write_back_store_ok ws Hok s Hs) as [Hnd' Hcl'].
    now apply roundtrip_store.
Qed.

(** X3. With the widgets of the editor in any state and a store that
    [parse_config] could have produced, [save_config] raises nothing, sets
    [self.settings] to the store with the widget values written back, hands
    its serialization to the file, and parsing that text gives exactly the
    new [self.settings]. *)
Theorem save_config_reloads : forall fname ws s,
  fname <> [] -> widgets_ok ws -> store_ok s ->
  let s' := write_back ws s in
  save_config fname ws s = (s', None, Some (serialize_config s'))
  /\ parse_config (serialize_config s') = s'.
Proof. intros fname ws s Hf Hws Hs. now apply save_config_written. Qed.

Lemma save_config_reloads_witness :
  let s := parse_config duplicate_text in
  let s' := write_back init_ui s in
  save_config (py "cs2_video.txt") init_ui s = (s', None, Some (serialize_config s'))
  /\ parse_config (serialize_config s') = s'.
Proof.
  apply (save_config_reloads (py "cs2_video.txt") init_ui (parse_config duplicate_text)).
  - discriminate.
  - exact widgets_ok_init.
  - exact (parse_config_store_ok duplicate_text).
Defined.

Lemma collect_value_keys : forall s k w s',
  collect_widget_value s k w = Ok s' ->
  exists extra, keys s' = keys s ++ extra /\ Forall editable extra
                /\ (NoDup (keys s) -> NoDup (keys s')).
Proof.
  intros s k w s' H. unfold collect_widget_value in H.
  assert (Hid : exists extra, keys s = keys s ++ extra /\ Forall editable extra
                              /\ (NoDup (keys s) -> NoDup (keys s))).
  { exists []. rewrite app_nil_r. auto. }
  destruct (dict_get SETTINGS_SCHEMA k) as [m|] eqn:Hm;
    [|injection H as <-; exact Hid].
  assert (Hset : mtype m <> TMeta -> forall r,
            exists extra, keys (dict_set s k r) = keys s ++ extra
                          /\ Forall editable extra
                          /\ (NoDup (keys s) -> NoDup (keys (dict_set s k r)))).
  { intros Hty r. destruct (keys_dict_set s k r) as [extra [E Hx]].
    exists extra. split; [exact E|]. split; [|now apply dict_set_NoDup].
    destruct Hx as [->|[-> _]]; [constructor|].
    constructor; [|constructor]. unfold editable. now rewrite Hm. }
  destruct (mtype m) eqn:Hty.
  - destruct w; cbn in H; try discriminate H; injection H as <-;
      apply Hset; discriminate.
  - destruct w; cbn in H; try discriminate H; injection H as <-;
      apply Hset; discriminate.
  - destruct w; cbn in H; try discriminate H; injection H as <-;
      apply Hset; discriminate.
  - injection H as <-. exact Hid.
Qed.

(** X4. Whatever the widgets are, [collect_widget_values] removes no key
    and moves none: the keys of the store stay where they are, in their
    order, and the new keys, all of them editable schema keys, follow
    them; keys that were distinct stay distinct. *)
Theorem collect_keeps_keys : forall ws s,
  exists extra,
    keys (fst (collect_widget_values ws s)) = keys s ++ extra
    /\ Forall editable extra
    /\ (NoDup (keys s) -> NoDup (keys (fst (collect_widget_values ws s)))).
Proof.
  induction ws as [|[k w] ws IH]; intro s; cbn [collect_widget_values].
  - exists []. rewrite app_nil_r. auto.
  - destruct (collect_widget_value s k w) as [s'|e] eqn:E.
    + destruct (collect_value_keys s k w s' E) as [x1 [E1 [F1 N1]]].
      destruct (IH s') as [x2 [E2 [F2 N2]]].
      exists (x1 ++ x2).
      split; [now rewrite E2, E1, <- app_assoc|].
      split; [apply Forall_app; now split|].
      intro H. apply N2, N1, H.
    + exists []. rewrite app_nil_r. auto.
Qed.

(** ** What [populate_widgets] does with the widgets of the editor *)

Lemma init_ui_shape_refl : forall k w0, In (k, w0) init_ui -> shape_ok w0 w0.
Proof.
  intros k w0 Hin.
  destruct (widgets_ok_entries init_ui widgets_ok_init k w0 Hin) as [w1 [H1 H2]].
  pose proof (dict_get_of_In init_ui k w0 init_ui_NoDup Hin).
  pose proof (dict_get_of_In init_ui k w1 init_ui_NoDup H1).
  congruence.
Qed.

Lemma max_fps_meta : forall m,
  dict_get SETTINGS_SCHEMA (py "setting.max_fps") = Some m ->
  m = m_int "FPS Limit" 0 999 None.
Proof. intros m H. vm_compute in H. now injection H as <-. Qed.

Lemma c_int_overflow : forall v,
  ~ (INT_MIN <= v <= INT_MAX)%Z -> c_int v = Raise OverflowError.
Proof.
  intros v H. unfold c_int.
  destruct ((INT_MIN <=? v) && (v <=? INT_MAX))%Z eqn:E; [|reflexivity].
  apply andb_true_iff in E as [E1 E2]. apply Z.leb_le in E1, E2. lia.
Qed.

Section Populate.
Variable ud : char -> option N.
Variable msd : nat.
Variable s : dict str.

(** One entry: the outcome does not depend on the state the widget is in;
    it is a widget of the same shape, or [OverflowError] for
    [setting.max_fps] when its value does not fit. *)
Lemma populate_widget_ok : forall k w0 w,
  In (k, w0) init_ui -> shape_ok w0 w ->
  populate_widget ud msd s k w = populate_widget ud msd s k w0
  /\ (fps_fits ud msd s ->
      exists w', populate_widget ud msd s k w = Ok w' /\ shape_ok w0 w')
  /\ (k = py "setting.max_fps" -> ~ fps_fits ud msd s ->
      populate_widget ud msd s k w = Raise OverflowError).
Proof.
  intros k w0 w Hin Hs.
  pose proof (init_ui_shape_refl k w0 Hin) as Hs0.
  destruct (shape_cases k w0 w Hin Hs) as [m [Hm Hc]].
  destruct (shape_cases k w0 w0 Hin Hs0) as [m' [Hm' Hc0]].
  assert (m' = m) by congruence. subst m'. clear Hm'.
  assert (Hne : mtype m <> TInt -> k <> py "setting.max_fps").
  { intros Hty ->. apply max_fps_meta in Hm. subst m. now apply Hty. }
  unfold populate_widget. rewrite Hm.
  destruct (mtype m) eqn:Hty.
  - destruct (str_eqb k (py "setting.max_fps")) eqn:Ek.
    + apply str_eqb_eq in Ek. subst k. apply max_fps_meta in Hm. subst m.
      destruct Hc as [v [-> Hv]]. destruct Hc0 as [v0 [-> Hv0]]. cbn iota.
      destruct (Z_le_dec INT_MIN (int_or_min ud msd (m_int "FPS Limit" 0 999 None)
                                    (dict_get s (py "setting.max_fps"))))
        as [L1|L1];
        [destruct (Z_le_dec (int_or_min ud msd (m_int "FPS Limit" 0 999 None)
                               (dict_get s (py "setting.max_fps"))) INT_MAX)
           as [L2|L2]|].
      * rewrite !populate_fps_in_range by (split; assumption). cbv zeta.
        split; [reflexivity|]. split.
        -- intros _. eexists. split; [reflexivity|].
           cbn. unfold qBound. repeat split; lia.
        -- intros _ Hn. exfalso. apply Hn. split; assumption.
      * assert (Hr : forall a b, populate_fps ud msd (m_int "FPS Limit" 0 999 None)
                       (dict_get s (py "setting.max_fps")) a b = Raise OverflowError).
        { intros a b. unfold populate_fps. rewrite int_or_min_eq.
          rewrite c_int_overflow by lia. reflexivity. }
        rewrite !Hr. split; [reflexivity|]. split; [|reflexivity].
        intros [_ F]. contradiction.
      * assert (Hr : forall a b, populate_fps ud msd (m_int "FPS Limit" 0 999 None)
                       (dict_get s (py "setting.max_fps")) a b = Raise OverflowError).
        { intros a b. unfold populate_fps. rewrite int_or_min_eq.
          rewrite c_int_overflow by lia. reflexivity. }
        rewrite !Hr. split; [reflexivity|]. split; [|reflexivity].
        intros [F _]. contradiction.
    + destruct Hc as [v [-> [Hv [R1 R2]]]]. destruct Hc0 as [v0 [-> [Hv0 _]]].
      cbn iota.
      rewrite !populate_spin_clamps by (cbn; auto; lia).
      split; [reflexivity|]. split.
      * intros _. eexists. split; [reflexivity|]. cbn.
        pose proof (qBound_range (get_min m) (get_max m)
                      (int_or_min ud msd m (dict_get s k)) ltac:(lia)).
        repeat split; lia.
      * intros E. apply str_eqb_neq in Ek. contradiction.
  - destruct Hc as [b ->]. destruct Hc0 as [b0 ->]. cbn [setChecked].
    split; [reflexivity|]. split.
    + intros _. eexists. split; [reflexivity|]. reflexivity.
    + intros E. exfalso. apply Hne; [discriminate | exact E].
  - destruct Hc as [i [-> Hi]]. destruct Hc0 as [i0 [-> Hi0]].
    assert (Hitems : map option_item (options m) <> []).
    { intro E. apply (f_equal (@List.length _)) in E.
      rewrite length_map in E. cbn in E. lia. }
    destruct (populate_combo_spec (map option_item (options m)) i
                (dict_get s k) Hitems) as [i' [E' P']].
    assert (Hsame : forall j, populate_combo (dict_get s k)
                                (QComboBox (map option_item (options m)) j)
                              = Ok (QComboBox (map option_item (options m)) i')).
    { intro j. rewrite <- E'. unfold populate_combo, setCurrentIndex.
      destruct (dict_get s k) as [v|]; [destruct (find_data _ v 0)|]; reflexivity. }
    rewrite !Hsame. split; [reflexivity|]. split.
    + intros _. eexists. split; [reflexivity|]. cbn. split; [reflexivity|].
      rewrite length_map.
      destruct (dict_get s k) as [v|]; [|lia].
      destruct P' as [[P1 [[l Hn] _]]|[_ ->]]; [|lia].
      assert (Z.to_nat i' < List.length (map option_item (options m)))%nat
        by (apply nth_error_Some; rewrite Hn; discriminate).
      rewrite length_map in H. lia.
    + intros E. exfalso. apply Hne; [discriminate | exact E].
  - destruct Hc as [t ->]. destruct Hc0 as [t0 ->]. cbn [setText].
    split; [reflexivity|]. split.
    + intros _. eexists. split; [reflexivity|]. exact I.
    + intros E. exfalso. apply Hne; [discriminate | exact E].
Qed.

End Populate.

Lemma init_ui_head :
  exists rest, init_ui = (py "setting.max_fps", fps_container) :: rest.
Proof. vm_compute. eexists. reflexivity. Qed.

Section PopulateLoop.
Variable ud : char -> option N.
Variable msd : nat.
Variable s : dict str.

Lemma populate_widgets_fits : forall l0 ws,
  (forall e, In e l0 -> In e init_ui) ->
  Forall2 (fun e0 e => fst e = fst e0 /\ shape_ok (snd e0) (snd e)) l0 ws ->
  fps_fits ud msd s ->
  exists ws',
    populate_widgets ud msd s ws = (ws', None)
    /\ populate_widgets ud msd s l0 = (ws', None)
    /\ Forall2 (fun e0 e => fst e = fst e0 /\ shape_ok (snd e0) (snd e)) l0 ws'.
Proof.
  intros l0 ws Hsub H Hfit.
  induction H as [|[k0 w0] [k w] l0 ws [Hk Hs] _ IH].
  - exists []. repeat split. constructor.
  - cbn [fst snd] in Hk, Hs. subst k.
    assert (Hin : In (k0, w0) init_ui) by (apply Hsub; now left).
    destruct (populate_widget_ok ud msd s k0 w0 w Hin Hs) as [E [Hok _]].
    destruct (Hok Hfit) as [w' [Ew Hs']].
    destruct (IH (fun e He => Hsub e (or_intror He))) as [ws' [E1 [E2 F]]].
    exists ((k0, w') :: ws'). cbn [populate_widgets].
    rewrite <- E, Ew, E1, E2. repeat split. constructor; auto.
Qed.

Lemma populate_widgets_outcome : forall ws,
  widgets_ok ws ->
  (fps_fits ud msd s ->
     exists ws', populate_widgets ud msd s ws = (ws', None) /\ widgets_ok ws')
  /\ (~ fps_fits ud msd s ->
        populate_widgets ud msd s ws = (ws, Some OverflowError)).
Proof.
  intros ws Hws. split.
  - intro Hfit.
    destruct (populate_widgets_fits init_ui ws (fun e H => H) Hws Hfit)
      as [ws' [E [_ F]]].
    exists ws'. split; [exact E | exact F].
  - intro Hn. destruct init_ui_head as [rest Ei]. unfold widgets_ok in Hws.
    pose proof (widgets_ok_entries ws Hws) as Hent.
    rewrite Ei in Hws. inversion Hws as [|e0 [k w] l0 l [Hk Hs] Hrest]; subst.
    cbn [fst snd] in Hk, Hs. subst k.
    assert (Hin : In (py "setting.max_fps", fps_container) init_ui)
      by (rewrite Ei; now left).
    destruct (populate_widget_ok ud msd s _ _ w Hin Hs) as [_ [_ Hr]].
    cbn [populate_widgets]. now rewrite (Hr eq_refl Hn).
Qed.

(** X5. With the widgets of the editor in any state, [populate_widgets]
    raises exactly when the value of [setting.max_fps] does not fit a C++
    [int]: then it raises [OverflowError] and changes no widget; otherwise
    it ends normally and leaves every widget in a state of the same
    shape. *)
Theorem populate_widgets_raises_iff : forall ws,
  widgets_ok ws ->
  (fps_fits ud msd s ->
     exists ws', populate_widgets ud msd s ws = (ws', None) /\ widgets_ok ws')
  /\ (~ fps_fits ud msd s ->
        populate_widgets ud msd s ws = (ws, Some OverflowError)).
Proof. intros ws Hws. now apply populate_widgets_outcome. Qed.

(** X6. When [populate_widgets] ends normally, what it leaves depends on
    the store only, not on what the widgets showed before: it is what it
    leaves on the widgets as [init_ui] made them. *)
Theorem populate_widgets_forgets : forall ws,
  widgets_ok ws -> fps_fits ud msd s ->
  populate_widgets ud msd s ws = populate_widgets ud msd s init_ui.
Proof.
  intros ws Hws Hfit.
  destruct (populate_widgets_fits init_ui ws (fun e H => H) Hws Hfit)
    as [ws' [E1 [E2 _]]].
  now rewrite E1, E2.
Qed.

End PopulateLoop.

Lemma widgets_ok_edited : widgets_ok edited_ui.
Proof.
  unfold widgets_ok. vm_compute.
  repeat (constructor; [repeat split; discriminate|]). constructor.
Qed.

Lemma populate_widgets_raises_iff_witness :
  let s := [(py "setting.max_fps", py "120")] in
  (exists ws', populate_widgets sample_decimal 4300 s edited_ui = (ws', None)
               /\ widgets_ok ws')
  /\ populate_widgets sample_decimal 4300 huge_fps edited_ui
       = (edited_ui, Some OverflowError).
Proof.
  intro s. split.
  - apply (proj1 (populate_widgets_raises_iff sample_decimal 4300%nat s
                    edited_ui widgets_ok_edited)).
    unfold fps_fits, INT_MIN, INT_MAX.
    change (int_or_min sample_decimal 4300 (m_int "FPS Limit" 0 999 None)
              (dict_get s (py "setting.max_fps"))) with 120%Z. lia.
  - apply (proj2 (populate_widgets_raises_iff sample_decimal 4300%nat huge_fps
                    edited_ui widgets_ok_edited)).
    unfold fps_fits, INT_MIN, INT_MAX.
    change (int_or_min sample_decimal 4300 (m_int "FPS Limit" 0 999 None)
              (dict_get huge_fps (py "setting.max_fps")))
      with 99999999999999999999%Z. lia.
Defined.

Lemma populate_widgets_forgets_witness :
  let s := [(py "setting.max_fps", py "120")] in
  populate_widgets sample_decimal 4300 s edited_ui
    = populate_widgets sample_decimal 4300 s init_ui.
Proof.
  intro s.
  apply (populate_widgets_forgets sample_decimal 4300%nat s edited_ui widgets_ok_edited).
  unfold fps_fits, INT_MIN, INT_MAX.
  change (int_or_min sample_decimal 4300 (m_int "FPS Limit" 0 999 None)
            (dict_get s (py "setting.max_fps"))) with 120%Z. lia.
Defined.

(** ** Writing the widgets back and showing them again *)

Section ShowAgain.
Variable ud : char -> option N.
Variable msd : nat.

(** One entry: a widget whose value is in the store as
    [collect_widget_values] writes it is left as it is. *)
Lemma populate_written : forall s1 k w0 w r,
  In (k, w0) init_ui -> shape_ok w0 w ->
  raw_of w = Some r -> dict_get s1 k = Some r ->
  populate_widget ud msd s1 k w = Ok w.
Proof.
  intros s1 k w0 w r Hin Hs Hr Hg.
  destruct (shape_cases k w0 w Hin Hs) as [m [Hm Hc]].
  destruct (mtype m) eqn:Hty.
  - destruct (str_eqb k (py "setting.max_fps")) eqn:Ek.
    + apply str_eqb_eq in Ek. subst k. destruct Hc as [v [-> Hv]].
      cbn in Hr. injection Hr as <-.
      assert (Ev : int_or_min ud msd (m_int "FPS Limit" 0 999 None)
                     (dict_get s1 (py "setting.max_fps")) = v).
      { rewrite Hg. unfold int_or_min. rewrite int_str_roundtrip; [reflexivity|].
        pose proof (str_of_int_short v). unfold INT_MIN, INT_MAX in *. lia. }
      rewrite int_decode_fps by (rewrite Ev; unfold INT_MIN, INT_MAX; lia).
      rewrite Ev. unfold qBound. do 3 f_equal; lia.
    + destruct Hc as [v [-> [Hv [R1 R2]]]]. cbn in Hr. injection Hr as <-.
      unfold populate_widget. rewrite Hm, Hty, Hg.
      rewrite populate_spin_clamps by (cbn; auto; lia).
      unfold int_or_min. rewrite int_str_roundtrip.
      * unfold with_value, qBound. cbn. do 3 f_equal. lia.
      * pose proof (str_of_int_short v). lia.
  - destruct Hc as [b ->]. cbn in Hr. injection Hr as <-.
    unfold populate_widget. rewrite Hm, Hty, Hg. now destruct b.
  - destruct Hc as [i [-> Hi]]. cbn [raw_of] in Hr.
    destruct (i <? 0)%Z eqn:E; [apply Z.ltb_lt in E; lia|].
    destruct (nth_error (map option_item (options m)) (Z.to_nat i))
      as [[l d]|] eqn:En.
    + injection Hr as <-.
      destruct (schema_enum_facts k m Hm Hty _ _ _ En) as [Hf _].
      rewrite Z2Nat.id in Hf by lia.
      unfold populate_widget. rewrite Hm, Hty, Hg.
      unfold populate_combo. rewrite Hf. unfold setCurrentIndex.
      rewrite length_map.
      replace ((0 <=? i) && (i <? Z.of_nat (List.length (options m))))%Z with true;
        [reflexivity|].
      symmetry. apply andb_true_iff. split; [apply Z.leb_le | apply Z.ltb_lt]; lia.
    + apply nth_error_None in En. rewrite length_map in En. lia.
  - destruct Hc as [t ->]. discriminate Hr.
Qed.

End ShowAgain.

Lemma kept_write_back : forall l l',
  Forall2 kept l l' -> forall s, write_back l' s = write_back l s.
Proof.
  induction 1 as [|[k w] [k' w'] l l' [Hk [He Hn]] _ IH]; intro s; [reflexivity|].
  cbn [write_back fold_left]. fold (write_back l' (write_one s (k', w'))).
  fold (write_back l (write_one s (k, w))). rewrite IH. f_equal.
  cbn [fst snd] in *. subst k'. unfold write_one. cbn [fst snd].
  destruct (raw_of w) as [r|] eqn:Hr.
  - assert (E : (k, w') = (k, w)) by (apply He; discriminate).
    injection E as ->. now rewrite Hr.
  - now rewrite (Hn eq_refl).
Qed.

Lemma kept_In : forall l l',
  Forall2 kept l l' ->
  forall e, In e l -> raw_of (snd e) <> None -> In e l'.
Proof.
  induction 1 as [|e0 e0' l l' [_ [He _]] _ IH]; intros e Hin Hr; [destruct Hin|].
  destruct Hin as [<-|Hin]; [left; now apply He | right; now apply IH].
Qed.

Section Session.
Variable ud : char -> option N.
Variable msd : nat.

Lemma write_back_fps_fits : forall ws s,
  widgets_ok ws -> fps_fits ud msd (write_back ws s).
Proof.
  intros ws s Hws.
  assert (Hnd : NoDup (keys ws))
    by (rewrite (widgets_ok_keys ws Hws); apply init_ui_NoDup).
  destruct init_ui_head as [rest Ei].
  assert (Hin0 : In (py "setting.max_fps", fps_container) init_ui)
    by (rewrite Ei; now left).
  pose proof Hws as Hws'. unfold widgets_ok in Hws'. rewrite Ei in Hws'.
  inversion Hws' as [|e0 [k w] l0 l [Hk Hs] Hrest]; subst.
  cbn [fst snd] in Hk, Hs. subst k.
  destruct (shape_cases _ _ w Hin0 Hs) as [m [Hm Hc]].
  apply max_fps_meta in Hm. subst m. cbn in Hc. destruct Hc as [v [-> Hv]].
  unfold fps_fits.
  rewrite (write_back_get _ s (py "setting.max_fps") _ (str_of_int v) Hnd
             (or_introl eq_refl) eq_refl).
  unfold int_or_min. rewrite int_str_roundtrip.
  - unfold INT_MIN, INT_MAX. lia.
  - pose proof (str_of_int_short v). unfold INT_MIN, INT_MAX in *. lia.
Qed.

Lemma populate_written_loop : forall s1 l,
  fps_fits ud msd s1 ->
  (forall k w, In (k, w) l ->
     exists w0, In (k, w0) init_ui /\ shape_ok w0 w
                /\ (forall r, raw_of w = Some r -> dict_get s1 k = Some r)) ->
  exists l', populate_widgets ud msd s1 l = (l', None) /\ Forall2 kept l l'.
Proof.
  intros s1 l Hfit. induction l as [|[k w] l IH]; intro Hl.
  - exists []. split; [reflexivity | constructor].
  - destruct (Hl k w (or_introl eq_refl)) as [w0 [Hin [Hs Hg]]].
    destruct (IH (fun k' w' H => Hl k' w' (or_intror H))) as [l' [E F]].
    cbn [populate_widgets]. destruct (raw_of w) as [r|] eqn:Hr.
    + rewrite (populate_written ud msd s1 k w0 w r Hin Hs Hr (Hg r eq_refl)), E.
      exists ((k, w) :: l'). split; [reflexivity|].
      constructor; [|exact F].
      split; [reflexivity|]. split; [reflexivity | intro H; congruence].
    + destruct (populate_widget_ok ud msd s1 k w0 w Hin Hs) as [_ [Hok _]].
      destruct (Hok Hfit) as [w' [Ew Hs']]. rewrite Ew, E.
      exists ((k, w') :: l'). split; [reflexivity|].
      constructor; [|exact F]. split; [reflexivity|]. split.
      * intro H. contradiction.
      * intros _. cbn [snd].
        destruct w0, w; cbn in Hs; try contradiction; try discriminate Hr;
          destruct w'; cbn in Hs'; try contradiction; reflexivity.
Qed.

Lemma written_then_shown : forall ws s,
  widgets_ok ws ->
  exists ws',
    populate_widgets ud msd (write_back ws s) ws = (ws', None)
    /\ Forall2 kept ws ws' /\ widgets_ok ws'.
Proof.
  intros ws s Hws.
  assert (Hnd : NoDup (keys ws))
    by (rewrite (widgets_ok_keys ws Hws); apply init_ui_NoDup).
  pose proof (write_back_fps_fits ws s Hws) as Hfit.
  destruct (populate_written_loop (write_back ws s) ws Hfit) as [ws' [E F]].
  - intros k w Hin. destruct (widgets_ok_entries ws Hws k w Hin) as [w0 [H0 Hs]].
    exists w0. repeat split; auto. intros r Hr. eapply write_back_get; eauto.
  - exists ws'. split; [exact E|]. split; [exact F|].
    destruct (proj1 (populate_widgets_outcome ud msd (write_back ws s) ws Hws) Hfit)
      as [ws'' [E' Hok]].
    congruence.
Qed.

(** X7. With the widgets of the editor in any state, showing the store
    that [collect_widget_values] has just written raises nothing and leaves
    every editable control exactly as it was: check boxes, spin boxes, the
    FPS control and the selected items keep their values. *)
Theorem collect_then_populate : forall ws s,
  widgets_ok ws ->
  exists ws',
    populate_widgets ud msd (fst (collect_widget_values ws s)) ws = (ws', None)
    /\ widgets_ok ws'
    /\ forall k w, In (k, w) ws -> editable k -> In (k, w) ws'.
Proof.
  intros ws s Hws.
  rewrite (collect_values_write_back ws (widgets_ok_entries ws Hws)). cbn [fst].
  destruct (written_then_shown ws s Hws) as [ws' [E [F Hok]]].
  exists ws'. split; [exact E|]. split; [exact Hok|].
  intros k w Hin He. apply (kept_In ws ws' F (k, w) Hin). cbn [snd].
  destruct (widgets_ok_entries ws Hws k w Hin) as [w0 [H0 Hs]].
  exact (proj2 (proj2 (collect_value_ok s k w0 w H0 Hs)) He).
Qed.

(** X8. Save, load, save: after [save_config] has written a text, reading
    that text with [read_config_file] raises nothing and gives the saved
    settings, and saving again writes the same text and leaves the settings
    as they are. *)
Theorem save_load_save : forall fname ws s,
  fname <> [] -> widgets_ok ws -> store_ok s ->
  let s1 := write_back ws s in
  let txt := serialize_config s1 in
  save_config fname ws s = (s1, None, Some txt)
  /\ exists ws1,
       read_config_file ud msd txt ws = (s1, (ws1, None))
       /\ widgets_ok ws1
       /\ save_config fname ws1 s1 = (s1, None, Some txt).
Proof.
  intros fname ws s Hf Hws Hs s1 txt.
  destruct (save_config_written fname ws s Hf Hws Hs) as [Esave Ert].
  fold s1 in Esave, Ert. fold txt in Esave.
  split; [exact Esave|].
  destruct (written_then_shown ws s Hws) as [ws1 [E [F Hok]]]. fold s1 in E.
  exists ws1. unfold read_config_file. subst txt. rewrite Ert, E.
  split; [reflexivity|]. split; [exact Hok|].
  assert (Hs1 : store_ok s1).
  { apply write_back_store_ok; [apply (widgets_ok_entries ws Hws) | exact Hs]. }
  destruct (save_config_written fname ws1 s1 Hf Hok Hs1) as [E2 _].
  rewrite E2. rewrite (kept_write_back ws ws1 F).
  assert (Hnd : NoDup (keys ws))
    by (rewrite (widgets_ok_keys ws Hws); apply init_ui_NoDup).
  subst s1. now rewrite !write_back_idem.
Qed.

End Session.

Lemma collect_then_populate_witness :
  exists ws',
    populate_widgets sample_decimal 4300
      (fst (collect_widget_values edited_ui (parse_config duplicate_text)))
      edited_ui = (ws', None)
    /\ widgets_ok ws'
    /\ forall k w, In (k, w) edited_ui -> editable k -> In (k, w) ws'.
Proof.
  exact (collect_then_populate sample_decimal 4300%nat edited_ui
           (parse_config duplicate_text) widgets_ok_edited).
Defined.

Lemma save_load_save_witness :
  let s1 := write_back edited_ui (parse_config duplicate_text) in
  let txt := serialize_config s1 in
  save_config (py "cs2_video.txt") edited_ui (parse_config duplicate_text)
    = (s1, None, Some txt)
  /\ exists ws1,
       read_config_file sample_decimal 4300 txt edited_ui = (s1, (ws1, None))
       /\ widgets_ok ws1
       /\ save_config (py "cs2_video.txt") ws1 s1 = (s1, None, Some txt).
Proof.
  apply (save_load_save sample_decimal 4300%nat (py "cs2_video.txt") edited_ui
           (parse_config duplicate_text)).
  - discriminate.
  - exact widgets_ok_edited.
  - exact (parse_config_store_ok duplicate_text).
Defined.

(** ** Loading and saving *)

Lemma widgets_ok_find : forall ws,
  widgets_ok ws ->
  forall k w0, In (k, w0) init_ui -> exists w, In (k, w) ws /\ shape_ok w0 w.
Proof.
  unfold widgets_ok. intros ws H.
  induction H as [|[k0 w0] [k1 w1] l0 l [Hk Hs] _ IH]; intros k w Hin;
    [destruct Hin|].
  cbn [fst snd] in Hk, Hs. subst k1. destruct Hin as [[= <- <-]|Hin].
  - exists w1. split; [now left | exact Hs].
  - destruct (IH k w Hin) as [w' [H1 H2]]. exists w'. split; [now right | exact H2].
Qed.

Lemma no_match_existsb : forall items v,
  no_match items v -> existsb (fun it : str * str => str_eqb (snd it) v) items = false.
Proof.
  induction items as [|[l d] items IH]; intros v H; [reflexivity|].
  cbn [existsb snd]. rewrite IH by (intros l' d' Hin; apply (H l' d'); now right).
  rewrite orb_false_r. apply str_eqb_neq. apply (H l d). now left.
Qed.

Lemma nth_existsb : forall items i l v,
  nth_error items i = Some (l, v) ->
  existsb (fun it : str * str => str_eqb (snd it) v) items = true.
Proof.
  intros items i l v H. apply existsb_exists. exists (l, v).
  split; [eapply nth_error_In; eauto | apply str_eqb_refl].
Qed.

Section LoadSave.
Variable ud : char -> option N.
Variable msd : nat.
Variable s : dict str.

Lemma populate_widgets_entry : forall l l',
  populate_widgets ud msd s l = (l', None) ->
  forall k w, In (k, w) l ->
    exists w', In (k, w') l' /\ populate_widget ud msd s k w = Ok w'.
Proof.
  induction l as [|[k0 w0] l IH]; intros l' H k w Hin; [destruct Hin|].
  cbn [populate_widgets] in H.
  destruct (populate_widget ud msd s k0 w0) as [w0'|e] eqn:E0; [|discriminate H].
  destruct (populate_widgets ud msd s l) as [r e] eqn:Er.
  injection H as <- ->. destruct Hin as [[= -> ->]|Hin].
  - exists w0'. split; [now left | exact E0].
  - destruct (IH r eq_refl k w Hin) as [w' [H1 H2]].
    exists w'. split; [now right | exact H2].
Qed.

(** What one editable widget holds after [populate_widgets]. *)
Lemma raw_after_populate : forall k m w0 w w',
  dict_get SETTINGS_SCHEMA k = Some m -> mtype m <> TMeta ->
  In (k, w0) init_ui -> shape_ok w0 w -> fps_fits ud msd s ->
  populate_widget ud msd s k w = Ok w' ->
  raw_of w' = Some (normalized ud msd m (dict_get s k)).
Proof.
  intros k m w0 w w' Hm Hty Hin Hs Hfit Hp.
  destruct (shape_cases k w0 w Hin Hs) as [m' [Hm' Hc]].
  assert (m' = m) by congruence. subst m'. clear Hm'.
  unfold normalized. destruct (mtype m) eqn:Et; [| | |contradiction].
  - destruct (str_eqb k (py "setting.max_fps")) eqn:Ek.
    + apply str_eqb_eq in Ek. subst k. pose proof (max_fps_meta m Hm). subst m.
      destruct Hc as [v [-> Hv]]. rewrite int_decode_fps in Hp by exact Hfit.
      injection Hp as <-. reflexivity.
    + destruct Hc as [v [-> [Hv [R1 R2]]]]. unfold populate_widget in Hp.
      rewrite Hm, Et in Hp. rewrite populate_spin_clamps in Hp by (cbn; auto; lia).
      injection Hp as <-. reflexivity.
  - destruct Hc as [b ->]. unfold populate_widget in Hp. rewrite Hm, Et in Hp.
    cbn [setChecked] in Hp. injection Hp as <-. cbn [raw_of].
    destruct (dict_get s k) as [v|]; [|reflexivity]. now destruct (str_eqb v (py "1")).
  - destruct Hc as [i [-> Hi]]. unfold populate_widget in Hp. rewrite Hm, Et in Hp.
    assert (Hitems : map option_item (options m) <> []).
    { intro E. apply (f_equal (@List.length _)) in E.
      rewrite length_map in E. cbn in E. lia. }
    destruct (populate_combo_spec (map option_item (options m)) i
                (dict_get s k) Hitems) as [i' [E' P']].
    rewrite E' in Hp. injection Hp as <-. cbn [raw_of].
    assert (H0 : forall j, j = 0%Z ->
              (if (j <? 0)%Z then py "None"
               else match nth_error (map option_item (options m)) (Z.to_nat j) with
                    | Some (_, data) => data
                    | None => py "None"
                    end)
              = match map option_item (options m) with
                | (_, d) :: _ => d
                | [] => py "None"
                end).
    { intros j ->. cbn. destruct (map option_item (options m)) as [|[l d] r];
        [contradiction | reflexivity]. }
    destruct (dict_get s k) as [v|].
    + destruct P' as [[P1 [[l Hn] _]]|[Hno ->]].
      * rewrite (nth_existsb _ _ _ _ Hn).
        destruct (i' <? 0)%Z eqn:E; [apply Z.ltb_lt in E; lia|]. now rewrite Hn.
      * rewrite (no_match_existsb _ _ Hno). f_equal. now apply H0.
    + subst i'. f_equal. now apply H0.
Qed.

(** X9. Load, then save: for every editable key of the schema the saved
    store holds the normalized raw value of what the loaded store had for
    it: 1 or 0 for a boolean, the integer bounded to its range (the minimum
    for an absent or unreadable value), the data of the matching option or
    of the first one. *)
Theorem load_save_normalizes : forall ws k m,
  widgets_ok ws -> fps_fits ud msd s ->
  dict_get SETTINGS_SCHEMA k = Some m -> mtype m <> TMeta ->
  let ws1 := fst (populate_widgets ud msd s ws) in
  dict_get (fst (collect_widget_values ws1 s)) k
    = Some (normalized ud msd m (dict_get s k)).
Proof.
  intros ws k m Hws Hfit Hm Hty ws1.
  destruct (proj1 (populate_widgets_outcome ud msd s ws Hws) Hfit)
    as [ws' [E Hok]].
  subst ws1. rewrite E. cbn [fst].
  rewrite (collect_values_write_back ws' (widgets_ok_entries ws' Hok)). cbn [fst].
  assert (Hin0 : In (k, widget_of k m) init_ui).
  { apply dict_get_In. exact (proj1 (schema_fact_of k m Hm)). }
  destruct (widgets_ok_find ws Hws k _ Hin0) as [w [Hin Hs]].
  destruct (populate_widgets_entry ws ws' E k w Hin) as [w' [Hin' Hp]].
  assert (Hnd : NoDup (keys ws'))
    by (rewrite (widgets_ok_keys ws' Hok); apply init_ui_NoDup).
  apply (write_back_get ws' s k w' _ Hnd Hin').
  exact (raw_after_populate k m _ w w' Hm Hty Hin0 Hs Hfit Hp).
Qed.

End LoadSave.

Lemma load_save_normalizes_witness :
  let s := [(py "setting.defaultres", py "99999"); (py "setting.cpu_level", py "7")] in
  let ws1 := fst (populate_widgets sample_decimal 4300 s edited_ui) in
  dict_get (fst (collect_widget_values ws1 s)) (py "setting.defaultres")
    = Some (py "7680")
  /\ dict_get (fst (collect_widget_values ws1 s)) (py "setting.cpu_level")
       = Some (py "0").
Proof.
  intros s ws1.
  assert (Hfit : fps_fits sample_decimal 4300 s).
  { unfold fps_fits, INT_MIN, INT_MAX.
    change (int_or_min sample_decimal 4300 (m_int "FPS Limit" 0 999 None)
              (dict_get s (py "setting.max_fps"))) with 0%Z. lia. }
  split.
  - exact (load_save_normalizes sample_decimal 4300%nat s edited_ui
             (py "setting.defaultres") (m_int "Resolution Width" 320 7680 (Some 1%Z))
             widgets_ok_edited Hfit eq_refl ltac:(discriminate)).
  - exact (load_save_normalizes sample_decimal 4300%nat s edited_ui
             (py "setting.cpu_level") (m_enum "CPU Detail Level" low_to_ultra)
             widgets_ok_edited Hfit eq_refl ltac:(discriminate)).
Defined.

(** ** Lines are parsed one by one *)

Lemma splitlines_nil : forall t, splitlines t = [] -> t = [].
Proof.
  intros [|c t] H; [reflexivity|]. cbn [splitlines] in H.
  destruct (is_linebreak c); [discriminate|].
  destruct (splitlines t); discriminate.
Qed.

Lemma splitlines_append_line : forall t1 t2,
  exists e, (e = [] \/ e = [[]])
            /\ splitlines (t1 ++ nl :: t2) = splitlines t1 ++ e ++ splitlines t2.
Proof.
  intro t1. remember (List.length t1) as n eqn:Hn.
  assert (Hle : (List.length t1 <= n)%nat) by lia. clear Hn. revert t1 Hle.
  induction n as [|n IH]; intros t1 Hle t2.
  - destruct t1; [|cbn in Hle; lia]. exists [[]]. split; [now right|].
    cbn [app]. destruct t2; reflexivity.
  - destruct t1 as [|c t1].
    + exists [[]]. split; [now right|]. cbn [app]. destruct t2; reflexivity.
    + cbn [List.length] in Hle. cbn [app splitlines].
      destruct (is_linebreak c) eqn:Ec.
      * destruct t1 as [|d t1].
        -- cbn [app]. destruct ((c =? cr) && (nl =? nl)) eqn:E.
           ++ exists []. split; [now left | reflexivity].
           ++ exists [[]]. split; [now right|]. destruct t2; reflexivity.
        -- cbn [app]. destruct ((c =? cr) && (d =? nl)).
           ++ destruct (IH t1 ltac:(cbn [List.length] in Hle; lia) t2) as [e [He E]].
              exists e. split; [exact He|]. now rewrite E.
           ++ destruct (IH (d :: t1) ltac:(lia) t2) as [e [He E]].
              exists e. split; [exact He|]. cbn [app] in E. now rewrite E.
      * destruct (IH t1 ltac:(lia) t2) as [e [He E]]. rewrite E.
        destruct (splitlines t1) as [|l ls] eqn:El.
        -- apply splitlines_nil in El. subst t1.
           change (splitlines ([] ++ nl :: t2)) with (splitlines (nl :: t2)) in E.
           change (splitlines []) with (@nil str) in E.
           assert (E0 : splitlines (nl :: t2) = [] :: splitlines t2)
             by (destruct t2; reflexivity).
           rewrite E0 in E. exists []. split; [now left|].
           rewrite <- E. reflexivity.
        -- exists e. split; [exact He | reflexivity].
Qed.

(** X10. Lines are parsed one by one: the matches of a text followed by a
    newline and a second text are the matches of the first followed by those
    of the second, so no pair spans a newline, and the store of the whole is
    the store of the first text with the pairs of the second set into it. *)
Theorem parse_config_lines : forall t1 t2,
  all_matches (t1 ++ [nl] ++ t2) = all_matches t1 ++ all_matches t2
  /\ parse_config (t1 ++ [nl] ++ t2)
       = fold_left set_pair (all_matches t2) (parse_config t1).
Proof.
  intros t1 t2.
  assert (E : all_matches (t1 ++ [nl] ++ t2) = all_matches t1 ++ all_matches t2).
  { unfold all_matches. cbn [app].
    destruct (splitlines_append_line t1 t2) as [e [He ->]].
    rewrite !flat_map_app. destruct He as [-> | ->]; reflexivity. }
  split; [exact E|]. unfold parse_config. now rewrite E, fold_left_app.
Qed.

(** ** The nickname *)

Lemma persona_re_items :
  persona_re =
    [lit 34; lit 80; lit 101; lit 114; lit 115; lit 111; lit 110; lit 97;
     lit 78; lit 97; lit 109; lit 101; lit 34;
     Item is_space Plus; lit 34; Item not_dq Plus; lit 34].
Proof. reflexivity. Qed.

Lemma lit_one_eq : forall x p' c s,
  match_here (lit x :: p') (c :: s) =
    if x =? c then push [c] (match_here p' s) else None.
Proof. reflexivity. Qed.

Lemma lit_dq_blocks : forall cl p',
  (forall c, cl c = true -> is_dq c = false) ->
  forall c s', cl c = true -> match_here (lit 34 :: p') (c :: s') = None.
Proof.
  intros cl p' H c s' Hc. rewrite lit_one_eq.
  destruct (34 =? c) eqn:E; [|reflexivity].
  apply N.eqb_eq in E. subst c. specialize (H _ Hc). discriminate H.
Qed.

Lemma search_sound : forall p s r,
  search p s = Some r -> exists pre suf, s = pre ++ suf /\ match_here p suf = Some r.
Proof.
  induction s as [|c s IH]; intros r H; cbn [search] in H.
  - destruct (match_here p []) eqn:E; [|discriminate].
    exists [], []. split; [reflexivity | congruence].
  - destruct (match_here p (c :: s)) eqn:E.
    + exists [], (c :: s). split; [reflexivity | congruence].
    + destruct (IH r H) as [pre [suf [-> Hm]]]. exists (c :: pre), suf. auto.
Qed.

Lemma persona_match_sound : forall s gs rest,
  match_here persona_re s = Some (gs, rest) ->
  exists ws n,
    s = [dq] ++ py "PersonaName" ++ [dq] ++ ws ++ [dq] ++ n ++ [dq] ++ rest
    /\ ws <> [] /\ forallb is_space ws = true
    /\ n <> [] /\ forallb not_dq n = true
    /\ nth 15 gs [] = n.
Proof.
  intros s gs rest H. rewrite persona_re_items in H.
  do 13 (destruct s as [|? s]; [discriminate H|];
         rewrite lit_one_eq in H;
         match type of H with
         | context [N.eqb ?x ?c] =>
             destruct (N.eqb_spec x c); [subst c | discriminate H]
         end).
  rewrite match_plus_det in H
    by (apply lit_dq_blocks; auto using is_space_not_dq).
  destruct (span is_space s) as [ws r1] eqn:S1. cbn [fst snd] in H.
  destruct ws as [|x ws]; [discriminate H|].
  destruct r1 as [|c1 r1]; [discriminate H|].
  rewrite lit_one_eq in H. destruct (N.eqb_spec 34 c1); [subst c1 | discriminate H].
  rewrite match_plus_det in H
    by (apply lit_dq_blocks; auto using not_dq_not_dq).
  destruct (span not_dq r1) as [n r2] eqn:S2. cbn [fst snd] in H.
  destruct n as [|y n]; [discriminate H|].
  destruct r2 as [|c2 r2]; [discriminate H|].
  rewrite lit_one_eq in H. destruct (N.eqb_spec 34 c2); [subst c2 | discriminate H].
  cbn in H. injection H as <- <-.
  apply span_spec in S1 as [-> [F1 _]]. apply span_spec in S2 as [-> [F2 _]].
  exists (x :: ws), (y :: n).
  split; [reflexivity|].
  repeat split; try discriminate; assumption.
Qed.

Lemma persona_match_complete : forall ws n rest,
  ws <> [] -> forallb is_space ws = true ->
  n <> [] -> forallb not_dq n = true ->
  exists gs,
    match_here persona_re
      ([dq] ++ py "PersonaName" ++ [dq] ++ ws ++ [dq] ++ n ++ [dq] ++ rest)
      = Some (gs, rest)
    /\ nth 15 gs [] = n.
Proof.
  intros ws n rest Hw Fw Hn Fn. rewrite persona_re_items.
  change ([dq] ++ py "PersonaName" ++ [dq] ++ ws ++ [dq] ++ n ++ [dq] ++ rest)
    with (34 :: 80 :: 101 :: 114 :: 115 :: 111 :: 110 :: 97 :: 78 :: 97 :: 109
             :: 101 :: 34 :: ws ++ dq :: n ++ dq :: rest).
  do 13 (rewrite lit_one_eq; rewrite N.eqb_refl).
  rewrite match_plus_det by (apply lit_dq_blocks; auto using is_space_not_dq).
  rewrite (span_app is_space ws _ Fw) by reflexivity. cbn [fst snd].
  destruct ws as [|x ws]; [contradiction|].
  unfold dq at 1. rewrite lit_one_eq, N.eqb_refl.
  rewrite match_plus_det by (apply lit_dq_blocks; auto using not_dq_not_dq).
  rewrite (span_app not_dq n _ Fn) by reflexivity. cbn [fst snd].
  destruct n as [|y n]; [contradiction|].
  unfold dq at 1. rewrite lit_one_eq, N.eqb_refl.
  eexists. split; reflexivity.
Qed.

Lemma match_needs_quote : forall s, ~ In dq s -> match_here persona_re s = None.
Proof.
  intros s Hn. destruct (match_here persona_re s) as [[gs rest]|] eqn:E;
    [|reflexivity].
  apply persona_match_sound in E as [ws [n [-> _]]]. exfalso. apply Hn. now left.
Qed.

Lemma search_skip : forall pre s,
  ~ In dq pre -> search persona_re (pre ++ dq :: s) = search persona_re (dq :: s).
Proof.
  induction pre as [|c pre IH]; intros s Hn; [reflexivity|].
  cbn [app search].
  destruct (match_here persona_re (c :: pre ++ dq :: s)) as [[gs rest]|] eqn:E.
  - apply persona_match_sound in E as [ws [n [E _]]].
    cbn [app] in E. injection E as -> _. exfalso. apply Hn. now left.
  - apply IH. intro H. apply Hn. now right.
Qed.

(** X11. The nickname read from [localconfig.vdf]: when the text has no
    match the nickname is empty; otherwise it is the non-empty, quote-free
    text between the quotes that follow the quoted word PersonaName and
    some whitespace.  When no quote stands before that word, the nickname is
    the one that follows it, line breaks included. *)
Theorem persona_name_spec :
  (forall vdf,
     persona_name vdf = []
     \/ exists pre ws post,
          vdf = pre ++ [dq] ++ py "PersonaName" ++ [dq] ++ ws ++ [dq]
                    ++ persona_name vdf ++ [dq] ++ post
          /\ ws <> [] /\ forallb is_space ws = true
          /\ persona_name vdf <> [] /\ ~ In dq (persona_name vdf))
  /\ (forall pre ws n post,
        ~ In dq pre -> ws <> [] -> forallb is_space ws = true ->
        n <> [] -> ~ In dq n ->
        persona_name (pre ++ [dq] ++ py "PersonaName" ++ [dq] ++ ws ++ [dq]
                          ++ n ++ [dq] ++ post) = n).
Proof.
  split.
  - intro vdf. unfold persona_name.
    destruct (search persona_re vdf) as [[gs rest]|] eqn:E; [|now left].
    right. apply search_sound in E as [pre [suf [-> Hm]]].
    apply persona_match_sound in Hm as [ws [n [-> [Hw [Fw [Hn [Fn ->]]]]]]].
    exists pre, ws, rest. repeat split; auto. now apply forallb_not_dq.
  - intros pre ws n post Hpre Hw Fw Hn Fn. unfold persona_name.
    apply forallb_not_dq in Fn.
    destruct (persona_match_complete ws n post Hw Fw Hn Fn) as [gs [Hm Hg]].
    cbn [app] in *. rewrite search_skip by exact Hpre.
    cbn [search]. rewrite Hm. exact Hg.
Qed.

Lemma persona_name_spec_witness :
  persona_name (py "{ " ++ [dq] ++ py "PersonaName" ++ [dq] ++ [tab; tab] ++ [dq]
                  ++ (py "Joe" ++ [nl] ++ py "Doe") ++ [dq] ++ py " }")
    = py "Joe" ++ [nl] ++ py "Doe".
Proof.
  apply (proj2 persona_name_spec (py "{ ") [tab; tab]
           (py "Joe" ++ [nl] ++ py "Doe") (py " }")).
  - intro H. repeat (destruct H as [H|H]; [discriminate H|]). exact H.
  - discriminate.
  - reflexivity.
  - discriminate.
  - intro H. repeat (destruct H as [H|H]; [discriminate H|]). exact H.
Defined.

(** ** Scanning a line *)

Lemma finditer_skip : forall c s, c <> dq -> finditer (c :: s) = finditer s.
Proof.
  intros c s Hc. unfold finditer. cbn [List.length finditer_from].
  replace (pair_match (c :: s)) with (@None (str * str * str)); [reflexivity|].
  unfold pair_match, pair_re. rewrite match_one_eq.
  apply N.eqb_neq in Hc. unfold is_dq. now rewrite Hc.
Qed.

(** X12. Scanning a line: text without a quote before a pair is skipped,
    the pair is a quoted non-empty key, whitespace and a quoted non-empty
    value, whatever the whitespace is, and the scan goes on right after the
    closing quote of the value. *)
Theorem finditer_first_pair : forall pre k ws v post,
  ~ In dq pre ->
  k <> [] -> ~ In dq k ->
  ws <> [] -> forallb is_space ws = true ->
  v <> [] -> ~ In dq v ->
  finditer (pre ++ [dq] ++ k ++ [dq] ++ ws ++ [dq] ++ v ++ [dq] ++ post)
    = (k, v) :: finditer post.
Proof.
  intros pre k ws v post Hpre Hk Fk Hw Fw Hv Fv.
  apply forallb_not_dq in Fk, Fv.
  induction pre as [|c pre IH].
  - cbn [app]. unfold finditer at 1. cbn [finditer_from].
    rewrite (pair_match_complete k ws v post Hk Fk Hw Fw Hv Fv).
    f_equal. apply finditer_from_enough.
    cbn [List.length]. repeat (rewrite length_app; cbn [List.length]). lia.
  - cbn [app]. rewrite finditer_skip by (intros ->; apply Hpre; now left).
    apply IH. intro H. apply Hpre. now right.
Qed.

Lemma finditer_first_pair_witness :
  finditer (py "  x = " ++ [dq] ++ py "k" ++ [dq] ++ [32; tab; 160] ++ [dq]
              ++ py "v 1" ++ [dq] ++ py " // note")
    = (py "k", py "v 1") :: finditer (py " // note").
Proof.
  apply (finditer_first_pair (py "  x = ") (py "k") [32; tab; 160] (py "v 1")
           (py " // note")).
  - intro H. repeat (destruct H as [H|H]; [discriminate H|]). exact H.
  - discriminate.
  - intro H. repeat (destruct H as [H|H]; [discriminate H|]). exact H.
  - discriminate.
  - reflexivity.
  - discriminate.
  - intro H. repeat (destruct H as [H|H]; [discriminate H|]). exact H.
Defined.

(** ** Integer keys, where the decode is as the schema says *)

(** What [populate_widgets] leaves for one key of the schema when it ends
    normally: the outcome of the loop body on the widget that was there. *)
Lemma populate_widgets_at : forall ud msd s ws k m,
  widgets_ok ws -> fps_fits ud msd s ->
  dict_get SETTINGS_SCHEMA k = Some m ->
  exists ws' w w',
    populate_widgets ud msd s ws = (ws', None) /\ widgets_ok ws'
    /\ In (k, widget_of k m) init_ui
    /\ In (k, w) ws /\ shape_ok (widget_of k m) w
    /\ populate_widget ud msd s k w = Ok w'
    /\ dict_get ws' k = Some w'.
Proof.
  intros ud msd s ws k m Hws Hfit Hm.
  destruct (proj1 (populate_widgets_outcome ud msd s ws Hws) Hfit)
    as [ws' [E Hok]].
  assert (Hin0 : In (k, widget_of k m) init_ui).
  { apply dict_get_In. exact (proj1 (schema_fact_of k m Hm)). }
  destruct (widgets_ok_find ws Hws k _ Hin0) as [w [Hin Hs]].
  destruct (populate_widgets_entry ud msd s ws ws' E k w Hin) as [w' [Hin' Hp]].
  exists ws', w, w'. repeat (split; [assumption|]).
  apply dict_get_of_In; [|exact Hin'].
  rewrite (widgets_ok_keys ws' Hok). apply init_ui_NoDup.
Qed.

(** X13. Integer keys with a plain spin box, in the loop: with the widgets
    of the editor in any state and a frame limit that fits a C++ [int],
    [populate_widgets] ends normally and leaves the spin box of the key with
    the range of the schema and, as its value, the parsed integer bounded
    to that range (the minimum when the raw value is absent or is no
    integer), whatever the raw value is. *)
Theorem plain_int_decode_clamps : forall ud msd s ws key m,
  widgets_ok ws -> fps_fits ud msd s ->
  dict_get SETTINGS_SCHEMA key = Some m ->
  mtype m = TInt ->
  key <> py "setting.max_fps" ->
  exists ws' b,
    populate_widgets ud msd s ws = (ws', None)
    /\ dict_get ws' key = Some (QSpinBox b)
    /\ minimum b = get_min m /\ maximum b = get_max m
    /\ value b = qBound (get_min m) (int_or_min ud msd m (dict_get s key))
                   (get_max m).
Proof.
  intros ud msd s ws key m Hws Hfit Hm Hty Hkey.
  destruct (populate_widgets_at ud msd s ws key m Hws Hfit Hm)
    as [ws' [w [w' [E [_ [Hin0 [_ [Hs [Hp Hg]]]]]]]]].
  destruct (shape_cases key _ w Hin0 Hs) as [m' [Hm' Hc]].
  assert (m' = m) by congruence. subst m'. rewrite Hty in Hc.
  apply str_eqb_neq in Hkey. rewrite Hkey in Hc.
  destruct Hc as [v [-> [Hv [R1 R2]]]].
  unfold populate_widget in Hp. rewrite Hm, Hty in Hp. cbn iota in Hp.
  rewrite populate_spin_clamps in Hp by (cbn; auto; lia).
  injection Hp as <-.
  exists ws', (with_value (Ranged (get_min m) (get_max m) v)
                 (qBound (get_min m) (int_or_min ud msd m (dict_get s key))
                    (get_max m))).
  repeat split; assumption || reflexivity.
Qed.

(** X14. [setting.max_fps]: when the parsed integer (0 for an absent or
    unreadable value) fits a C++ [int], the spin box and the slider of the
    FPS control both end at that integer bounded to 0..999, whatever they
    showed before. *)
Theorem fps_decode_clamps_in_range : forall ud msd settings cur1 cur2,
  let key := py "setting.max_fps" in
  let v := int_or_min ud msd (m_int "FPS Limit" 0 999 None) (dict_get settings key) in
  (INT_MIN <= v <= INT_MAX)%Z ->
  populate_widget ud msd settings key
    (FpsContainer (Ranged 0 999 cur1) (Ranged 0 999 cur2)) =
    Ok (FpsContainer (Ranged 0 999 (qBound 0 v 999)) (Ranged 0 999 (qBound 0 v 999))).
Proof. exact int_decode_fps. Qed.

Lemma plain_int_decode_clamps_witness :
  let s := [(py "setting.defaultres", py "99999999999999999999")] in
  exists ws' b,
    populate_widgets sample_decimal 4300 s edited_ui = (ws', None)
    /\ dict_get ws' (py "setting.defaultres") = Some (QSpinBox b)
    /\ minimum b = 320%Z /\ maximum b = 7680%Z /\ value b = 7680%Z.
Proof.
  intro s.
  apply (plain_int_decode_clamps sample_decimal 4300%nat s edited_ui
           (py "setting.defaultres") (m_int "Resolution Width" 320 7680 (Some 1%Z))
           widgets_ok_edited); [|reflexivity|reflexivity|discriminate].
  unfold fps_fits, INT_MIN, INT_MAX.
  change (int_or_min sample_decimal 4300 (m_int "FPS Limit" 0 999 None)
            (dict_get s (py "setting.max_fps"))) with 0%Z. lia.
Defined.

Lemma fps_decode_clamps_in_range_witness :
  populate_widget sample_decimal 4300 [(py "setting.max_fps", py "2147483647")]
    (py "setting.max_fps") (FpsContainer (Ranged 0 999 60) (Ranged 0 999 60))
    = Ok (FpsContainer (Ranged 0 999 999) (Ranged 0 999 999)).
Proof.
  apply (fps_decode_clamps_in_range sample_decimal 4300%nat
           [(py "setting.max_fps", py "2147483647")] 60%Z 60%Z).
  unfold INT_MIN, INT_MAX.
  change (int_or_min sample_decimal 4300 (m_int "FPS Limit" 0 999 None)
            (dict_get [(py "setting.max_fps", py "2147483647")]
               (py "setting.max_fps"))) with 2147483647%Z.
  lia.
Defined.

(** ** Saving before anything was loaded *)

Lemma write_back_fresh_keys : forall l s,
  NoDup (keys s ++ keys l) ->
  keys (write_back l s) = keys s ++ keys (filter has_raw l).
Proof.
  induction l as [|[k w] l IH]; intros s Hnd.
  - cbn. now rewrite app_nil_r.
  - cbn [write_back fold_left]. fold (write_back l (write_one s (k, w))).
    cbn [keys map fst] in Hnd.
    assert (Hk : ~ In k (keys s)).
    { intro H. apply NoDup_remove_2 in Hnd. apply Hnd. apply in_or_app. now left. }
    cbn [filter]. unfold has_raw at 1, write_one. cbn [fst snd].
    destruct (raw_of w) as [r|].
    + rewrite IH.
      * rewrite dict_set_absent by exact Hk. unfold keys.
        rewrite map_app. cbn [map fst]. now rewrite <- app_assoc.
      * rewrite dict_set_absent by exact Hk. unfold keys in *.
        rewrite map_app. cbn [map fst]. rewrite <- app_assoc. exact Hnd.
    + apply IH. apply NoDup_remove_1 in Hnd. exact Hnd.
Qed.

Lemma widgets_ok_has_raw : forall ws,
  widgets_ok ws -> keys (filter has_raw ws) = keys (filter has_raw init_ui).
Proof.
  unfold widgets_ok. intros ws H.
  induction H as [|[k0 w0] [k w] l0 l [Hk Hs] _ IH]; [reflexivity|].
  cbn [fst snd] in Hk, Hs. subst k. cbn [filter].
  assert (E : has_raw (k0, w) = has_raw (k0, w0)).
  { unfold has_raw. cbn [snd].
    destruct w0, w; cbn in Hs; try contradiction; reflexivity. }
  rewrite E. unfold keys in *.
  destruct (has_raw (k0, w0)); cbn [map fst]; now rewrite IH.
Qed.

(** X15. Saving before anything was loaded: with an empty store,
    [collect_widget_values] raises nothing and builds a store whose keys
    are exactly the schema keys that are not metadata, in schema order, each
    with the raw value of its widget; [save_config] does this even when the
    file dialog is cancelled, and then writes nothing. *)
Theorem first_save_keys : forall ws,
  widgets_ok ws ->
  let s' := fst (collect_widget_values ws []) in
  snd (collect_widget_values ws []) = None
  /\ keys s' = editable_keys
  /\ (forall k w r, In (k, w) ws -> raw_of w = Some r -> dict_get s' k = Some r)
  /\ save_config [] ws [] = (s', None, None).
Proof.
  intros ws Hws s'.
  pose proof (collect_values_write_back ws (widgets_ok_entries ws Hws) []) as E.
  assert (Hnd : NoDup (keys ws))
    by (rewrite (widgets_ok_keys ws Hws); apply init_ui_NoDup).
  subst s'. unfold save_config. rewrite E. cbn [fst snd].
  split; [reflexivity|]. split; [|split; [|reflexivity]].
  - rewrite write_back_fresh_keys by exact Hnd. cbn [keys map app].
    fold (keys (filter has_raw ws)). rewrite (widgets_ok_has_raw ws Hws).
    reflexivity.
  - intros k w r Hin Hr. eapply write_back_get; eauto.
Qed.

Lemma first_save_keys_witness :
  keys (fst (collect_widget_values edited_ui [])) = editable_keys
  /\ dict_get (fst (collect_widget_values edited_ui [])) (py "setting.defaultres")
       = Some (py "1920")
  /\ dict_get (fst (collect_widget_values edited_ui [])) (py "Version") = None.
Proof.
  destruct (first_save_keys edited_ui widgets_ok_edited) as [_ [Hk [Hv _]]].
  split; [exact Hk|]. split.
  - apply (Hv (py "setting.defaultres") (QSpinBox (Ranged 320 7680 1920))).
    + vm_compute. tauto.
    + reflexivity.
  - reflexivity.
Defined.

(** ** The loop, key by key *)

(** X16. Enum keys, in the loop: with the widgets of the editor in any
    state and a frame limit that fits a C++ [int], [populate_widgets] ends
    normally and leaves the combo box of the key with the declared options
    and, selected, the first option whose data equals the raw value, or the
    first option when none does or the key is absent. *)
Theorem enum_decode_loop : forall ud msd s ws key m,
  widgets_ok ws -> fps_fits ud msd s ->
  dict_get SETTINGS_SCHEMA key = Some m ->
  mtype m = TEnum ->
  let items := map option_item (options m) in
  exists ws' i,
    populate_widgets ud msd s ws = (ws', None)
    /\ dict_get ws' key = Some (QComboBox items i)
    /\ match dict_get s key with
       | Some v => (0 <= i)%Z /\ first_match items v (Z.to_nat i)
                   \/ no_match items v /\ i = 0%Z
       | None => i = 0%Z
       end.
Proof.
  intros ud msd s ws key m Hws Hfit Hm Hty items.
  destruct (populate_widgets_at ud msd s ws key m Hws Hfit Hm)
    as [ws' [w [w' [E [_ [Hin0 [_ [Hs [Hp Hg]]]]]]]]].
  destruct (shape_cases key _ w Hin0 Hs) as [m' [Hm' Hc]].
  assert (m' = m) by congruence. subst m'. rewrite Hty in Hc.
  destruct Hc as [i1 [-> _]].
  destruct (proj1 enum_decode ud msd s key m Hm Hty) as [_ [_ Hd]].
  subst items. destruct (Hd i1) as [i [Hp' Hi]].
  rewrite Hp' in Hp. injection Hp as <-.
  exists ws', i. repeat split; assumption.
Qed.

Lemma enum_decode_loop_witness :
  let s := [(py "setting.cpu_level", py "3")] in
  let items := map option_item (map py low_to_ultra) in
  exists ws' i,
    populate_widgets sample_decimal 4300 s edited_ui = (ws', None)
    /\ dict_get ws' (py "setting.cpu_level") = Some (QComboBox items i)
    /\ ((0 <= i)%Z /\ first_match items (py "3") (Z.to_nat i)
        \/ no_match items (py "3") /\ i = 0%Z).
Proof.
  intros s items.
  apply (enum_decode_loop sample_decimal 4300%nat s edited_ui
           (py "setting.cpu_level") (m_enum "CPU Detail Level" low_to_ultra)
           widgets_ok_edited); [|reflexivity|reflexivity].
  unfold fps_fits, INT_MIN, INT_MAX.
  change (int_or_min sample_decimal 4300 (m_int "FPS Limit" 0 999 None)
            (dict_get s (py "setting.max_fps"))) with 0%Z. lia.
Defined.

(** X17. Boolean keys, in both loops: with the widgets of the editor in
    any state, [populate_widgets] with a frame limit that fits a C++ [int]
    ends normally and leaves the check box of the key checked exactly when
    the raw value is the string [1]; [collect_widget_values] raises nothing
    and stores [1] for the key when its check box is checked and [0] when
    it is not. *)
Theorem bool_coercion_loop : forall ud msd s ws key m,
  widgets_ok ws ->
  dict_get SETTINGS_SCHEMA key = Some m ->
  mtype m = TBool ->
  (fps_fits ud msd s ->
   exists ws' b,
     populate_widgets ud msd s ws = (ws', None)
     /\ dict_get ws' key = Some (QCheckBox [] b)
     /\ (b = true <-> dict_get s key = Some (py "1")))
  /\ (exists b,
        dict_get ws key = Some (QCheckBox [] b)
        /\ snd (collect_widget_values ws s) = None
        /\ dict_get (fst (collect_widget_values ws s)) key
             = Some (if b then py "1" else py "0")).
Proof.
  intros ud msd s ws key m Hws Hm Hty.
  assert (Hnd : NoDup (keys ws))
    by (rewrite (widgets_ok_keys ws Hws); apply init_ui_NoDup).
  assert (Hin0 : In (key, widget_of key m) init_ui).
  { apply dict_get_In. exact (proj1 (schema_fact_of key m Hm)). }
  split.
  - intro Hfit.
    destruct (populate_widgets_at ud msd s ws key m Hws Hfit Hm)
      as [ws' [w [w' [E [_ [_ [_ [Hs [Hp Hg]]]]]]]]].
    destruct (shape_cases key _ w Hin0 Hs) as [m' [Hm' Hc]].
    assert (m' = m) by congruence. subst m'. rewrite Hty in Hc.
    destruct Hc as [b1 ->].
    destruct (bool_coercion ud msd s key m Hm Hty) as [_ [Hd _]].
    destruct (Hd [] b1) as [b [Hp' Hb]]. rewrite Hp' in Hp. injection Hp as <-.
    exists ws', b. repeat split; try assumption; apply Hb.
  - destruct (widgets_ok_find ws Hws key _ Hin0) as [w [Hin Hs]].
    destruct (shape_cases key _ w Hin0 Hs) as [m' [Hm' Hc]].
    assert (m' = m) by congruence. subst m'. rewrite Hty in Hc.
    destruct Hc as [b ->]. exists b.
    rewrite (collect_values_write_back ws (widgets_ok_entries ws Hws)).
    cbn [fst snd]. split; [now apply dict_get_of_In|]. split; [reflexivity|].
    now apply (write_back_get ws s key (QCheckBox [] b)).
Qed.

Lemma bool_coercion_loop_witness :
  let s := [(py "setting.fullscreen", py "yes")] in
  (exists ws' b,
     populate_widgets sample_decimal 4300 s edited_ui = (ws', None)
     /\ dict_get ws' (py "setting.fullscreen") = Some (QCheckBox [] b)
     /\ (b = true <-> dict_get s (py "setting.fullscreen") = Some (py "1")))
  /\ (exists b,
        dict_get edited_ui (py "setting.fullscreen") = Some (QCheckBox [] b)
        /\ snd (collect_widget_values edited_ui s) = None
        /\ dict_get (fst (collect_widget_values edited_ui s))
             (py "setting.fullscreen") = Some (if b then py "1" else py "0")).
Proof.
  intro s.
  destruct (bool_coercion_loop sample_decimal 4300%nat s edited_ui
              (py "setting.fullscreen") (m_bool "Fullscreen")
              widgets_ok_edited eq_refl eq_refl) as [Hd He].
  split; [|exact He]. apply Hd.
  unfold fps_fits, INT_MIN, INT_MAX.
  change (int_or_min sample_decimal 4300 (m_int "FPS Limit" 0 999 None)
            (dict_get s (py "setting.max_fps"))) with 0%Z. lia.
Defined.

(** ** Where the loop stops before a key is decoded *)

(** C5, where the code departs from it.  The store [huge_fps_session] is
    what [parse_config] reads from its own serialization; it holds [2] for
    [setting.cpu_level], the data of the option High.  [populate_widgets]
    raises [OverflowError] at [setting.max_fps], its first widget, and
    leaves every widget as it was: the combo box of [setting.cpu_level]
    still has item 0 (Low) selected, though the enum branch alone selects
    item 2 (High) from this store. *)
Theorem enum_decode_aborted : forall ud msd,
  let cpu := py "setting.cpu_level" in
  let items := map option_item (map py low_to_ultra) in
  parse_config (serialize_config huge_fps_session) = huge_fps_session
  /\ dict_get huge_fps_session cpu = Some (py "2")
  /\ dict_get init_ui cpu = Some (QComboBox items 0)
  /\ nth_error items 0 = Some (py "Low", py "0")
  /\ nth_error items 2 = Some (py "High", py "2")
  /\ populate_widgets ud msd huge_fps_session init_ui
       = (init_ui, Some OverflowError)
  /\ populate_widget ud msd huge_fps_session cpu (QComboBox items 0)
       = Ok (QComboBox items 2).
Proof. intros ud msd. repeat split. Qed.

(** C6, where the code departs from it.  The store [huge_fps_session]
    holds [1] for [setting.fullscreen].  [populate_widgets] raises
    [OverflowError] at [setting.max_fps], its first widget, and leaves every
    widget as it was: the check box of [setting.fullscreen] stays
    unchecked, though the boolean branch alone checks it from this store.
    Encoding is not affected: [collect_widget_values] stores [1] for a
    checked box and [0] for an unchecked one. *)
Theorem bool_decode_aborted : forall ud msd,
  let full := py "setting.fullscreen" in
  parse_config (serialize_config huge_fps_session) = huge_fps_session
  /\ dict_get huge_fps_session full = Some (py "1")
  /\ dict_get init_ui full = Some (QCheckBox [] false)
  /\ populate_widgets ud msd huge_fps_session init_ui
       = (init_ui, Some OverflowError)
  /\ populate_widget ud msd huge_fps_session full (QCheckBox [] false)
       = Ok (QCheckBox [] true)
  /\ dict_get (fst (collect_widget_values init_ui huge_fps_session)) full
       = Some (py "0")
  /\ dict_get (fst (collect_widget_values edited_ui huge_fps_session)) full
       = Some (py "1").
Proof. intros ud msd. repeat split. Qed.
